(** * get_address.py: DMS parsing and the per-row reverse-geocoding pipeline

    A shallow embedding of [src/dataset_50/get_address.py].  Python strings
    are sequences of Unicode code points, Python floats are IEEE 754
    binary64 values (the [spec_float] operations of the Standard Library at
    precision 53 and maximal exponent 1024), the regular expression of
    [parse_dms] is a syntax tree run by a backtracking matcher, and
    exceptions and the calls made to the collaborators are threaded through
    a small monad.

    The interpreter is CPython 3.11: the character tables are those of
    Unicode 14.0, [int] refuses texts of more than 4300 digits, an [int]
    too large for a float raises OverflowError where it meets one, and
    [float] rounds a decimal text to the nearest float.  The geocoding
    client, the file system and the table reader are parameters. *)

From Stdlib Require Import String Ascii ZArith NArith List Bool Lia SpecFloat.
Import ListNotations.

(** ** Python strings *)

Module Str.

Local Open Scope N_scope.

(** A Python [str]: a sequence of code points. *)
Definition pystr := list N.

(** An ASCII literal as a [pystr]. *)
Definition lit (s : string) : pystr :=
  map N_of_ascii (list_ascii_of_string s).

Definition apostrophe : N := 39.      (* ' *)
Definition quotation : N := 34.       (* the ASCII double quote *)
Definition prime : N := 8242.         (* U+2032 *)
Definition double_prime : N := 8243.  (* U+2033 *)
Definition full_stop : N := 46.       (* . *)
Definition line_feed : N := 10.
Definition long_s : N := 383.         (* U+017F, LATIN SMALL LETTER LONG S *)

(** [str.isspace] on one code point, which is also the class [\s] of the
    [re] module on [str] patterns (Unicode 14.0). *)
Definition isspace (c : N) : bool :=
  ((9 <=? c) && (c <=? 13)) || ((28 <=? c) && (c <=? 32))
  || (c =? 133) || (c =? 160) || (c =? 5760)
  || ((8192 <=? c) && (c <=? 8202))
  || (c =? 8232) || (c =? 8233) || (c =? 8239) || (c =? 8287)
  || (c =? 12288).

(** The code points of the digit zero of every script of category Nd
    (Unicode 14.0); the ten digits of a script are contiguous and in
    order. *)
Definition decimal_zeros : list N :=
  [48; 1632; 1776; 1984; 2406; 2534; 2662; 2790; 2918; 3046; 3174; 3302;
   3430; 3558; 3664; 3792; 3872; 4160; 4240; 6112; 6160; 6470; 6608; 6784;
   6800; 6992; 7088; 7232; 7248; 42528; 43216; 43264; 43472; 43504; 43600;
   44016; 65296; 66720; 68912; 69734; 69872; 69942; 70096; 70384; 70736;
   70864; 71248; 71360; 71472; 71904; 72016; 72784; 73040; 73120; 92768;
   92864; 93008; 120782; 120792; 120802; 120812; 120822; 123200; 123632;
   125264; 130032].

(** The decimal value of a code point of category Nd, as [int] and
    [float] read it. *)
Definition decimal_value (c : N) : option N :=
  match find (fun z => (z <=? c) && (c <? z + 10)) decimal_zeros with
  | Some z => Some (c - z)
  | None => None
  end.

(** The class [\d] of the [re] module on [str] patterns. *)
Definition isdecimal (c : N) : bool :=
  match decimal_value c with Some _ => true | None => false end.

(** The simple lower-case mapping the [re] module applies to a subject
    character under IGNORECASE.  It is tabulated on the code points whose
    image is an ASCII letter (the 26 capitals, U+0130 and U+212A); the
    images of the other code points are never ASCII letters, and they are
    left in place here. *)
Definition tolower (c : N) : N :=
  if (65 <=? c) && (c <=? 90) then c + 32
  else if c =? 304 then 105
  else if c =? 8490 then 107
  else c.

(** The extra code points the [re] module adds to a lower-cased literal
    under IGNORECASE: [s] also stands for the long s.  (Of the letters of
    the pattern only [s] has such an entry.) *)
Definition ignorecase_fixes (c : N) : list N :=
  if c =? 115 then [long_s] else [].

(** [str.upper] on one character, tabulated on the code points whose
    image is an ASCII capital: the 26 small letters, and the long s whose
    capital is [S].  On that domain a one-character string stays a
    one-character string. *)
Definition toupper (c : N) : N :=
  if (97 <=? c) && (c <=? 122) then c - 32
  else if c =? long_s then 83
  else c.

Definition upper (s : pystr) : pystr := map toupper s.

Fixpoint lstrip (s : pystr) : pystr :=
  match s with
  | c :: s' => if isspace c then lstrip s' else s
  | [] => []
  end.

(** [str.strip()]: leading and trailing white space removed. *)
Definition strip (s : pystr) : pystr :=
  rev (lstrip (rev (lstrip s))).

Fixpoint eqb (s t : pystr) : bool :=
  match s, t with
  | [], [] => true
  | c :: s', d :: t' => (c =? d) && eqb s' t'
  | _, _ => false
  end.

(** [str(n)] for a count [n]: its decimal digits. *)
Fixpoint decimal_digits (fuel : nat) (n : N) (acc : pystr) : pystr :=
  match fuel with
  | O => acc
  | S fuel' =>
      let acc' := (48 + n mod 10) :: acc in
      if n / 10 =? 0 then acc' else decimal_digits fuel' (n / 10) acc'
  end.

Definition str_of_nat (n : nat) : pystr :=
  decimal_digits (S n) (N.of_nat n) [].

End Str.

Import Str.

(** ** Regular expressions *)

Module Re.

(** The syntax of the patterns [parse_dms] uses.  Capturing groups carry
    their number. *)
Inductive regex : Type :=
| Bol                          (* ^ *)
| Eol                          (* $ *)
| Lit (c : N)                  (* a literal character *)
| Digit                        (* \d *)
| Space                        (* \s *)
| Class (cs : list N)          (* [...] of literal characters *)
| Seq (r1 r2 : regex)
| Star (r : regex)             (* r*, greedy *)
| Plus (r : regex)             (* r+, greedy *)
| Opt (r : regex)              (* r?, greedy *)
| Group (i : nat) (r : regex). (* ( r ), the i-th group *)

Record flags := { ignorecase : bool }.

(** The state of a match: the number of characters consumed, the rest of
    the subject, and the groups closed so far (latest first). *)
Record mstate := {
  pos : nat;
  rest : pystr;
  groups : list (nat * pystr)
}.

Definition cont := mstate -> option mstate.

(** Whether the subject character [x] matches one of the literals [cs]:
    under IGNORECASE the literals are lower-cased and completed with their
    fixes, and the subject character is lower-cased. *)
Definition char_in (fl : flags) (cs : list N) (x : N) : bool :=
  if ignorecase fl then
    existsb (fun c => (tolower x =? tolower c)%N
                      || existsb (N.eqb (tolower x)) (ignorecase_fixes (tolower c))) cs
  else existsb (N.eqb x) cs.

(** One character of the subject, when it satisfies [p]. *)
Definition one (p : N -> bool) (k : cont) (st : mstate) : option mstate :=
  match rest st with
  | x :: tl =>
      if p x then k {| pos := S (pos st); rest := tl; groups := groups st |}
      else None
  | [] => None
  end.

(** Greedy iteration: one more round of [body] first, the continuation
    when that fails.  A round that consumes nothing is not repeated. *)
Fixpoint iterate (body : cont -> cont) (fuel : nat) (k : cont) (st : mstate)
  : option mstate :=
  match fuel with
  | O => k st
  | S fuel' =>
      match body (fun st' =>
                    if (length (rest st') <? length (rest st))%nat
                    then iterate body fuel' k st' else None) st with
      | Some r => Some r
      | None => k st
      end
  end.

Definition close_group (i : nat) (st st' : mstate) : mstate :=
  {| pos := pos st'; rest := rest st';
     groups := (i, firstn (pos st' - pos st) (rest st)) :: groups st' |}.

(** The backtracking matcher, in continuation-passing style. *)
Fixpoint run (fl : flags) (r : regex) (k : cont) (st : mstate) : option mstate :=
  match r with
  | Bol => match pos st with O => k st | S _ => None end
  | Eol =>
      match rest st with
      | [] => k st
      | [c] => if (c =? line_feed)%N then k st else None
      | _ => None
      end
  | Lit c => one (char_in fl [c]) k st
  | Digit => one isdecimal k st
  | Space => one isspace k st
  | Class cs => one (char_in fl cs) k st
  | Seq r1 r2 => run fl r1 (run fl r2 k) st
  | Star r1 => iterate (run fl r1) (length (rest st)) k st
  | Plus r1 =>
      run fl r1 (fun st' => iterate (run fl r1) (length (rest st')) k st') st
  | Opt r1 =>
      match run fl r1 k st with
      | Some r => Some r
      | None => k st
      end
  | Group i r1 => run fl r1 (fun st' => k (close_group i st st')) st
  end.

(** [re.match(pattern, subject, flags)]: a match anchored at the start of
    the subject. *)
Definition re_match (fl : flags) (r : regex) (subject : pystr) : option mstate :=
  run fl r Some {| pos := 0%nat; rest := subject; groups := [] |}.

(** [match.group(i)]: [None] for a group that took no part in the match. *)
Fixpoint group (i : nat) (gs : list (nat * pystr)) : option pystr :=
  match gs with
  | (j, s) :: gs' => if (i =? j)%nat then Some s else group i gs'
  | [] => None
  end.

End Re.

Import Re.

(** ** The pattern of [parse_dms]

    The pattern is written under VERBOSE: outside a character class white
    space is dropped and [#] starts a comment.  What is left reads, with
    Q for the ASCII double quote, P for the prime U+2032 and PP for the
    double prime U+2033,
<<
    ^\s*(\d+)\s*deg\s+(\d+)\s*['P]\s+(\d+(?:\.\d+)?)\s*[Q PP]\s+([NSEW])\s*$
>>
    (the two classes hold two characters each). *)

Fixpoint sequence (rs : list regex) : regex :=
  match rs with
  | [] => Star (Class [])   (* the empty pattern; not used below *)
  | [r] => r
  | r :: rs' => Seq r (sequence rs')
  end.

Definition dms_pattern : regex :=
  sequence [ Bol; Star Space;
        Group 1 (Plus Digit); Star Space; Lit 100%N; Lit 101%N; Lit 103%N; Plus Space;
        Group 2 (Plus Digit); Star Space; Class [apostrophe; prime]; Plus Space;
        Group 3 (Seq (Plus Digit) (Opt (Seq (Lit full_stop) (Plus Digit))));
        Star Space; Class [quotation; double_prime]; Plus Space;
        Group 4 (Class [78; 83; 69; 87]%N); Star Space; Eol ].

(** [re.VERBOSE | re.IGNORECASE]; VERBOSE is spent in the reading of the
    pattern above. *)
Definition dms_flags : flags := {| ignorecase := true |}.

(** The pattern in three parts, for the proofs: up to the white space
    after the minute mark, the group of the seconds, and the rest. *)
Definition dms_head : regex :=
  sequence [ Bol; Star Space;
             Group 1 (Plus Digit); Star Space; Lit 100%N; Lit 101%N; Lit 103%N;
             Plus Space;
             Group 2 (Plus Digit); Star Space; Class [apostrophe; prime];
             Plus Space ].

Definition dms_seconds : regex :=
  Group 3 (Seq (Plus Digit) (Opt (Seq (Lit full_stop) (Plus Digit)))).

Definition dms_tail : regex :=
  sequence [ Star Space; Class [quotation; double_prime]; Plus Space;
             Group 4 (Class [78; 83; 69; 87]%N); Star Space; Eol ].

(** ** Python values, exceptions and arithmetic *)

Module Py.

(** A Python float is an IEEE 754 binary64 value. *)
Definition float := spec_float.
Definition prec : Z := 53.
Definition emax : Z := 1024.

(** The values a cell of the input table, a coordinate or a field of an
    output row can hold. *)
Inductive value : Type :=
| PyNone
| PyBool (b : bool)
| PyInt (z : Z)
| PyFloat (f : float)
| PyStr (s : pystr).

(** Exceptions, all of them subclasses of [Exception].  [Failure] stands
    for the exceptions of the collaborators (the geocoding client), of
    which only [str(e)] is observed. *)
Inductive exn : Type :=
| ValueError (msg : pystr)
| OverflowError (msg : pystr)
| ZeroDivisionError (msg : pystr)
| TypeError (msg : pystr)
| AttributeError (msg : pystr)
| KeyError (key : pystr)
| FileNotFoundError (msg : pystr)
| Failure (msg : pystr).

(** [repr] of a string without quotes, backslashes or unprintable
    characters (the column names and dictionary keys of this program). *)
Definition repr (s : pystr) : pystr := [apostrophe] ++ s ++ [apostrophe].

(** [str(e)]. *)
Definition str_exn (e : exn) : pystr :=
  match e with
  | ValueError m | OverflowError m | ZeroDivisionError m | TypeError m
  | AttributeError m | FileNotFoundError m | Failure m => m
  | KeyError k => repr k
  end.

Inductive result (A : Type) : Type :=
| Ok (a : A)
| Raise (e : exn).
Arguments Ok {A} a.
Arguments Raise {A} e.

Definition rbind {A B : Type} (r : result A) (f : A -> result B) : result B :=
  match r with
  | Ok a => f a
  | Raise e => Raise e
  end.

(** [pd.isna] on a scalar: [None] and the float NaN. *)
Definition isna (v : value) : bool :=
  match v with
  | PyNone => true
  | PyFloat S754_nan => true
  | _ => false
  end.

Definition isinstance_str (v : value) : bool :=
  match v with
  | PyStr _ => true
  | _ => false
  end.

(** Truth value ([not v] is its negation). *)
Definition truthy (v : value) : bool :=
  match v with
  | PyNone => false
  | PyBool b => b
  | PyInt z => negb (z =? 0)%Z
  | PyFloat (S754_zero _) => false
  | PyFloat _ => true
  | PyStr [] => false
  | PyStr (_ :: _) => true
  end.

(** An integer as an unrounded binary number. *)
Definition exact (z : Z) : spec_float :=
  match z with
  | Z0 => S754_zero false
  | Zpos p => S754_finite false p 0
  | Zneg p => S754_finite true p 0
  end.

(** The conversion of an [int] operand in mixed arithmetic: rounded to the
    nearest float, ties to even. *)
Definition float_of_int (z : Z) : result float :=
  match binary_normalize prec emax z 0 false with
  | S754_infinity _ => Raise (OverflowError (lit "int too large to convert to float"))
  | f => Ok f
  end.

(** [a / b] on two [int]s: the quotient, rounded once. *)
Definition int_truediv (a b : Z) : result float :=
  if (b =? 0)%Z then Raise (ZeroDivisionError (lit "division by zero"))
  else
    match SFdiv prec emax (exact a) (exact b) with
    | S754_infinity _ =>
        Raise (OverflowError (lit "integer division result too large for a float"))
    | f => Ok f
    end.

Definition float_add (x y : float) : float := SFadd prec emax x y.
Definition float_mul (x y : float) : float := SFmul prec emax x y.

Definition float_truediv (x y : float) : result float :=
  match y with
  | S754_zero _ => Raise (ZeroDivisionError (lit "float division by zero"))
  | _ => Ok (SFdiv prec emax x y)
  end.

(** [z + y], [x / z] and [x * z] with an [int] [z] and floats [x], [y]. *)
Definition int_add_float (z : Z) (y : float) : result float :=
  rbind (float_of_int z) (fun x => Ok (float_add x y)).

Definition float_truediv_int (x : float) (z : Z) : result float :=
  rbind (float_of_int z) (fun y => float_truediv x y).

Definition float_mul_int (x : float) (z : Z) : result float :=
  rbind (float_of_int z) (fun y => Ok (float_mul x y)).

(** The number a string of decimal digits denotes. *)
Fixpoint digits_acc (acc : N) (s : pystr) : option N :=
  match s with
  | [] => Some acc
  | c :: s' =>
      match decimal_value c with
      | Some d => digits_acc (10 * acc + d) s'
      | None => None
      end
  end.

Definition digits_value (s : pystr) : option N :=
  match s with
  | [] => None
  | _ :: _ => digits_acc 0 s
  end.

(** The default of [sys.get_int_max_str_digits()]. *)
Definition int_max_str_digits : nat := 4300.

(** [int(s)] on the texts the pattern captures, strings of decimal
    digits.  The argument is a group of a match, [None] when the group
    took no part in it. *)
Definition py_int (g : option pystr) : result Z :=
  match g with
  | None => Raise (TypeError (lit "int() argument must be a string, a bytes-like object or a real number, not 'NoneType'"))
  | Some s =>
      match digits_value s with
      | Some n =>
          if (length s <=? int_max_str_digits)%nat then Ok (Z.of_N n)
          else Raise (ValueError
                        (lit "Exceeds the limit (4300 digits) for integer string conversion: value has "
                         ++ str_of_nat (length s)
                         ++ lit " digits; use sys.set_int_max_str_digits() to increase the limit"))
      | None =>
          Raise (ValueError (lit "invalid literal for int() with base 10: " ++ repr s))
      end
  end.

(** The text before the first full stop, and the text after it. *)
Fixpoint split_stop (s : pystr) : pystr * option pystr :=
  match s with
  | [] => ([], None)
  | c :: s' =>
      if (c =? full_stop)%N then ([], Some s')
      else let (a, b) := split_stop s' in (c :: a, b)
  end.

(** The decimal number [n / 10^k], rounded once to the nearest float,
    ties to even; too large a number gives the infinity. *)
Definition decimal_to_float (n : N) (k : nat) : float :=
  SFdiv prec emax (exact (Z.of_N n)) (exact (10 ^ Z.of_nat k)).

(** [float(s)] on the texts the pattern captures: decimal digits, and
    possibly a full stop followed by decimal digits. *)
Definition py_float (g : option pystr) : result float :=
  match g with
  | None => Raise (TypeError (lit "float() argument must be a string or a real number, not 'NoneType'"))
  | Some s =>
      let bad := Raise (ValueError (lit "could not convert string to float: " ++ repr s)) in
      match split_stop s with
      | (ip, None) =>
          match digits_value ip with
          | Some n => Ok (decimal_to_float n 0)
          | None => bad
          end
      | (ip, Some fp) =>
          match digits_value ip, digits_value fp with
          | Some _, Some _ =>
              match digits_value (ip ++ fp) with
              | Some n => Ok (decimal_to_float n (length fp))
              | None => bad
              end
          | _, _ => bad
          end
      end
  end.

End Py.

Import Py.

Declare Scope py_scope.
Delimit Scope py_scope with py.
Notation "x <- r ;; k" := (rbind r (fun x => k))
  (at level 61, r at next level, right associativity) : py_scope.

(** ** parse_dms *)

Local Open Scope py_scope.

(** [direction.upper() in ['S', 'W']], on a group of the match. *)
Definition south_or_west (direction : option pystr) : result bool :=
  match direction with
  | None => Raise (AttributeError (lit "'NoneType' object has no attribute 'upper'"))
  | Some d =>
      let u := upper d in Ok (Str.eqb u [83%N] || Str.eqb u [87%N])
  end.

(** The body of [parse_dms] after the match (lines 27 to 39), on the
    groups of the match. *)
Definition decimal_of_groups (gs : list (nat * pystr)) : result value :=
  let direction := group 4 gs in
  degrees <- py_int (group 1 gs) ;;
  minutes <- py_int (group 2 gs) ;;
  seconds <- py_float (group 3 gs) ;;
  m60 <- int_truediv minutes 60 ;;
  dm <- int_add_float degrees m60 ;;
  s3600 <- float_truediv_int seconds 3600 ;;
  let decimal := float_add dm s3600 in
  in_south_or_west <- south_or_west direction ;;
  if in_south_or_west then
    negated <- float_mul_int decimal (-1) ;;
    Ok (PyFloat negated)
  else Ok (PyFloat decimal).

Definition parse_dms (dms_str : value) : result value :=
  if isna dms_str || negb (isinstance_str dms_str) then Ok PyNone
  else
    match dms_str with
    | PyStr s =>
        match re_match dms_flags dms_pattern (strip s) with
        | None => Raise (ValueError (lit "Invalid DMS format: " ++ s))
        | Some m => decimal_of_groups (groups m)
        end
    | _ => Ok PyNone
    end.

(** ** Calls, exceptions and the collaborators *)

(** What a run does to the outside, in order: the calls of [parse_dms]
    made by [process_row], and the calls of the geocoding client. *)
Inductive event : Type :=
| CallParse (dms_str : value)
| CallGeocode (lat lng : value).

Definition trace := list event.

(** A computation that may raise and that extends the trace. *)
Definition M (A : Type) : Type := trace -> result A * trace.

Definition ret {A : Type} (a : A) : M A := fun tr => (Ok a, tr).

Definition raise {A : Type} (e : exn) : M A := fun tr => (Raise e, tr).

Definition bind {A B : Type} (m : M A) (f : A -> M B) : M B :=
  fun tr =>
    match m tr with
    | (Ok a, tr') => f a tr'
    | (Raise e, tr') => (Raise e, tr')
    end.

(** [try: body except Exception as e: handler]. *)
Definition try_except {A : Type} (body : M A) (handler : exn -> M A) : M A :=
  fun tr =>
    match body tr with
    | (Ok a, tr') => (Ok a, tr')
    | (Raise e, tr') => handler e tr'
    end.

Definition emit (ev : event) : M unit := fun tr => (Ok tt, tr ++ [ev]).

Definition lift {A : Type} (r : result A) : M A := fun tr => (r, tr).

Declare Scope m_scope.
Delimit Scope m_scope with M.
Notation "x <-- m ;; k" := (bind m (fun x => k))
  (at level 61, m at next level, right associativity) : m_scope.
Notation "m ;;; k" := (bind m (fun _ => k))
  (at level 61, right associativity) : m_scope.

Local Open Scope m_scope.

(** One result of a reverse geocoding: a dictionary. *)
Definition geocode_result := list (pystr * pystr).

Fixpoint dict_get (d : geocode_result) (key : pystr) : result pystr :=
  match d with
  | [] => Raise (KeyError key)
  | (k, v) :: d' => if Str.eqb k key then Ok v else dict_get d' key
  end.

(** The geocoding client: [reverse_geocode((lat, lng))] returns a list of
    results or raises; the reply may depend on the calls made before. *)
Record gmaps_client : Type := {
  reverse_geocode : trace -> value -> value -> result (list geocode_result)
}.

Definition call_reverse_geocode (c : gmaps_client) (lat lng : value)
  : M (list geocode_result) :=
  fun tr => (reverse_geocode c tr lat lng, tr ++ [CallGeocode lat lng]).

Definition call_parse_dms (dms_str : value) : M value :=
  emit (CallParse dms_str) ;;; lift (parse_dms dms_str).

(** ** get_address_from_coordinates *)

Definition get_address_from_coordinates (gmaps_client : gmaps_client)
  (lat lng : value) : M pystr :=
  if isna lat || isna lng then ret (lit "No coordinates available")
  else
    try_except
      (result <-- call_reverse_geocode gmaps_client lat lng ;;
       match result with
       | first :: _ => lift (dict_get first (lit "formatted_address"))
       | [] => ret (lit "Address not found")
       end)
      (fun e => ret (lit "Error getting address: " ++ str_exn e)).

(** ** process_row *)

(** A row of the input table: a Series, from column labels to cells. *)
Definition row := list (string * value).

(** [row.get(key, default)]. *)
Fixpoint row_get (r : row) (key : string) (default : value) : value :=
  match r with
  | [] => default
  | (k, v) :: r' => if String.eqb k key then v else row_get r' key default
  end.

(** The Series [process_row] returns. *)
Record processed : Type := {
  address : pystr;
  latitude : value;
  longitude : value
}.

Definition process_row (row : row) (gmaps_client : gmaps_client) : M processed :=
  try_except
    (let lat_dms := row_get row "GPSLatitude" (PyStr []) in
     let lng_dms := row_get row "GPSLongitude" (PyStr []) in
     if isna lat_dms || isna lng_dms || negb (truthy lat_dms) || negb (truthy lng_dms)
     then ret {| address := lit "No coordinates available";
                 latitude := PyNone; longitude := PyNone |}
     else
       lat <-- call_parse_dms lat_dms ;;
       lng <-- call_parse_dms lng_dms ;;
       address <-- get_address_from_coordinates gmaps_client lat lng ;;
       ret {| address := address; latitude := lat; longitude := lng |})
    (fun e => ret {| address := lit "Error: " ++ str_exn e;
                     latitude := PyNone; longitude := PyNone |}).

(** ** process_coordinates_file *)

(** A table: its column labels and its rows of cells, in order.  A cell a
    row is too short for is the missing value NaN. *)
Record DataFrame : Type := {
  columns : list string;
  data : list (list value)
}.

Definition series (cols : list string) (cells : list value) : row :=
  map (fun ic => (snd ic, nth (fst ic) cells (PyFloat S754_nan)))
      (combine (List.seq 0 (length cols)) cols).

(** The result table: the [filename] column and the three columns of the
    processed rows. *)
Record output_row : Type := {
  filename : value;
  processed_fields : processed
}.

(** [df[[label]]]: the column, or [KeyError] when the table has none of
    that label.  The message of pandas names the label within a longer
    text that varies with its version; the payload here is the label
    alone. *)
Definition select_column (df : DataFrame) (label : string) : result (list value) :=
  if existsb (String.eqb label) (columns df)
  then Ok (map (fun cells => row_get (series (columns df) cells) label (PyFloat S754_nan))
               (data df))
  else Raise (KeyError (lit label)).

(** [df.apply(f, axis=1)] and [df.progress_apply(f, axis=1)]: [f] on every
    row in order.  The cells are kept as [f] returned them; pandas may
    store a null cell as NaN where the model has [None], both of which
    [isna] takes for null. *)
Fixpoint apply_rows {A : Type} (f : row -> M A) (rows : list row) : M (list A) :=
  match rows with
  | [] => ret []
  | r :: rows' =>
      a <-- f r ;;
      rest <-- apply_rows f rows' ;;
      ret (a :: rest)
  end.

Definition df_apply {A : Type} (df : DataFrame) (f : row -> M A) : M (list A) :=
  apply_rows f (map (series (columns df)) (data df)).

(** [pd.concat([left, right], axis=1)] on two tables of one index. *)
Definition concat_columns (left : list value) (right : list processed)
  : list output_row :=
  map (fun p => {| filename := fst p; processed_fields := snd p |})
      (combine left right).

(** The file system is a function from paths to tables ([read_csv] of a
    file that exists); the client is the one [googlemaps.Client] builds
    from the key.  Writing the output file and printing are left out. *)
Definition process_coordinates_file (files : pystr -> option DataFrame)
  (input_file : pystr) (gmaps : gmaps_client) (show_progress : bool)
  : M (list output_row) :=
  match files input_file with
  | None =>
      raise (FileNotFoundError
               (lit "Input file '" ++ input_file ++ lit "' not found"))
  | Some df =>
      let apply_method :=
        if show_progress then df_apply (A:=processed) df else df_apply df in
      result_df <-- lift (select_column df "SourceFile") ;;
      processed_results <-- apply_method (fun row => process_row row gmaps) ;;
      ret (concat_columns result_df processed_results)
  end.

(** ** Well-formed DMS texts

    The shape of the specification (degrees, the word deg, minutes and
    their mark, seconds and their mark, hemisphere letter), token by token,
    with the white space between the tokens. *)

Module Dms.

Record text : Type := {
  sp0 : pystr;                  (* white space before the degrees *)
  degrees_text : pystr;         (* D *)
  sp1 : pystr;
  deg_word : pystr;             (* deg *)
  sp2 : pystr;
  minutes_text : pystr;         (* M *)
  sp3 : pystr;
  minute_mark : N;              (* the apostrophe or the prime *)
  sp4 : pystr;
  seconds_int : pystr;          (* S, before the full stop *)
  seconds_frac : option pystr;  (* S, after the full stop, if any *)
  sp5 : pystr;
  second_mark : N;              (* the double quote or the double prime *)
  sp6 : pystr;
  hemisphere : N;               (* H *)
  sp7 : pystr                   (* white space after the hemisphere *)
}.

Definition seconds_text (t : text) : pystr :=
  seconds_int t ++
  match seconds_frac t with
  | None => []
  | Some f => full_stop :: f
  end.

(** From the degrees to the hemisphere letter. *)
Definition core (t : text) : pystr :=
  degrees_text t ++ sp1 t ++ deg_word t ++ sp2 t ++
  minutes_text t ++ sp3 t ++ minute_mark t :: sp4 t ++
  seconds_text t ++ sp5 t ++ second_mark t :: sp6 t ++ [hemisphere t].

Definition render (t : text) : pystr := sp0 t ++ core t ++ sp7 t.

Definition spaces (s : pystr) : bool := forallb isspace s.

Definition nonempty (s : pystr) : bool :=
  match s with [] => false | _ :: _ => true end.

Definition digits (s : pystr) : bool := nonempty s && forallb isdecimal s.

Definition is_deg (w : pystr) : bool := Str.eqb (map tolower w) (lit "deg").

Definition is_minute_mark (c : N) : bool := (c =? apostrophe)%N || (c =? prime)%N.

Definition is_second_mark (c : N) : bool :=
  (c =? quotation)%N || (c =? double_prime)%N.

(** N, S, E, W and n, s, e, w. *)
Definition is_hemisphere (c : N) : bool :=
  existsb (N.eqb c) [78; 83; 69; 87; 110; 115; 101; 119]%N.

(** The tokens are what they should be, whatever the white space. *)
Definition tokens_ok (t : text) : bool :=
  digits (degrees_text t) && is_deg (deg_word t) &&
  digits (minutes_text t) && is_minute_mark (minute_mark t) &&
  digits (seconds_int t) &&
  match seconds_frac t with None => true | Some f => digits f end &&
  is_second_mark (second_mark t) && is_hemisphere (hemisphere t).

(** Any amount of white space anywhere between and around the tokens. *)
Definition loosely_spaced (t : text) : bool :=
  spaces (sp0 t) && spaces (sp1 t) && spaces (sp2 t) && spaces (sp3 t) &&
  spaces (sp4 t) && spaces (sp5 t) && spaces (sp6 t) && spaces (sp7 t).

(** White space after [deg] and after each of the two marks. *)
Definition separated (t : text) : bool :=
  nonempty (sp2 t) && nonempty (sp4 t) && nonempty (sp6 t).

Definition well_formed (t : text) : bool :=
  tokens_ok t && loosely_spaced t && separated t.

(** The characters the class of the hemisphere matches under IGNORECASE. *)
Definition matches_hemisphere (c : N) : bool :=
  char_in dms_flags [78; 83; 69; 87]%N c.

(** The tokens as the pattern takes them. *)
Definition tokens_match (t : text) : bool :=
  digits (degrees_text t) && is_deg (deg_word t) &&
  digits (minutes_text t) && is_minute_mark (minute_mark t) &&
  digits (seconds_int t) &&
  match seconds_frac t with None => true | Some f => digits f end &&
  is_second_mark (second_mark t) && matches_hemisphere (hemisphere t).

(** The texts the pattern is written for. *)
Definition shape (t : text) : bool :=
  tokens_match t && loosely_spaced t && separated t.

(** The text without the white space around it. *)
Definition trimmed (t : text) : text :=
  {| sp0 := []; degrees_text := degrees_text t; sp1 := sp1 t;
     deg_word := deg_word t; sp2 := sp2 t; minutes_text := minutes_text t;
     sp3 := sp3 t; minute_mark := minute_mark t; sp4 := sp4 t;
     seconds_int := seconds_int t; seconds_frac := seconds_frac t;
     sp5 := sp5 t; second_mark := second_mark t; sp6 := sp6 t;
     hemisphere := hemisphere t; sp7 := [] |}.

(** The four groups of a match of the text, latest first. *)
Definition captured (t : text) : list (nat * pystr) :=
  [(4%nat, [hemisphere t]); (3%nat, seconds_text t);
   (2%nat, minutes_text t); (1%nat, degrees_text t)].

(** The number a text of decimal digits denotes. *)
Definition number (s : pystr) : Z :=
  match digits_value s with
  | Some n => Z.of_N n
  | None => 0%Z
  end.

(** D, M and S. *)
Definition degrees_of (t : text) : Z := number (degrees_text t).
Definition minutes_of (t : text) : Z := number (minutes_text t).

Definition seconds_of (t : text) : float :=
  match seconds_frac t with
  | None => decimal_to_float (Z.to_N (number (seconds_int t))) 0
  | Some f =>
      decimal_to_float (Z.to_N (number (seconds_int t ++ f))) (length f)
  end.

(** [sign(H)]: +1 for N and E, -1 for S and W. *)
Definition sign (h : N) : Z :=
  if existsb (N.eqb h) [83; 87; 115; 119]%N then (-1)%Z else 1%Z.

(** [sg * (D + M/60 + S/3600)] for a sign [sg], in the arithmetic of
    Python: [M/60] is the quotient of two [int]s, [D] is converted to a
    float by the sum, 3600 and the sign by the quotient and the product.
    The product by +1 leaves a float as it is. *)
Definition signed_decimal (sg D M : Z) (S : float) : result float :=
  m60 <- int_truediv M 60 ;;
  dm <- int_add_float D m60 ;;
  s3600 <- float_truediv_int S 3600 ;;
  let decimal := float_add dm s3600 in
  if (sg =? 1)%Z then Ok decimal else float_mul_int decimal sg.

(** The integers of the text are within the limit of [int], and within
    the range of the floats: D as a float, M/60 as a quotient. *)
Definition within_int_limit (t : text) : bool :=
  (length (degrees_text t) <=? int_max_str_digits)%nat
  && (length (minutes_text t) <=? int_max_str_digits)%nat.

Definition within_float_range (t : text) : bool :=
  match float_of_int (degrees_of t), int_truediv (minutes_of t) 60 with
  | Ok _, Ok _ => true
  | _, _ => false
  end.

(** The degrees and the minutes are in the range of the conversions. *)
Definition in_range (t : text) : bool :=
  within_int_limit t && within_float_range t.

End Dms.

(** ** Definitions for the proofs *)

Module Support.

Local Open Scope N_scope.

(** A boolean property checked on every code point below a bound. *)
Fixpoint all_from (P : N -> bool) (c : N) (n : nat) : bool :=
  match n with
  | O => true
  | S n' => P c && all_from P (N.succ c) n'
  end.

Definition all_below (P : N -> bool) (b : N) : bool :=
  all_from P 0 (N.to_nat b).

Local Close Scope N_scope.

(** The state of a match at position [n], before the text [r]. *)
Definition at_ (n : nat) (r : pystr) (g : list (nat * pystr)) : mstate :=
  {| pos := n; rest := r; groups := g |}.

(** The text [tl] does not start with a character of the class [p]. *)
Definition stops (p : N -> bool) (tl : pystr) : Prop :=
  match tl with
  | [] => True
  | c :: _ => p c = false
  end.

(** The float is a zero, a finite number or an infinity of sign [s]. *)
Definition signed_as (s : bool) (x : spec_float) : Prop :=
  match x with
  | S754_nan => False
  | S754_zero s' | S754_infinity s' | S754_finite s' _ _ => s' = s
  end.

End Support.

Import Support.

(** ** Example texts *)

Module Examples.

Import Dms.

(** 37 deg 36' 55.54 N, with the ASCII marks. *)
Definition example_text : text :=
  {| sp0 := []; degrees_text := lit "37"; sp1 := lit " "; deg_word := lit "deg";
     sp2 := lit " "; minutes_text := lit "36"; sp3 := [];
     minute_mark := apostrophe; sp4 := lit " ";
     seconds_int := lit "55"; seconds_frac := Some (lit "54"); sp5 := [];
     second_mark := quotation; sp6 := lit " "; hemisphere := 78%N; sp7 := [] |}.

(** The text with other marks and another hemisphere letter. *)
Definition with_marks (t : text) (m1 m2 h : N) : text :=
  {| sp0 := sp0 t; degrees_text := degrees_text t; sp1 := sp1 t;
     deg_word := deg_word t; sp2 := sp2 t; minutes_text := minutes_text t;
     sp3 := sp3 t; minute_mark := m1; sp4 := sp4 t;
     seconds_int := seconds_int t; seconds_frac := seconds_frac t;
     sp5 := sp5 t; second_mark := m2; sp6 := sp6 t; hemisphere := h;
     sp7 := sp7 t |}.

(** The example without the white space after the minute mark. *)
Definition unseparated_text : text :=
  {| sp0 := []; degrees_text := lit "37"; sp1 := lit " "; deg_word := lit "deg";
     sp2 := lit " "; minutes_text := lit "36"; sp3 := [];
     minute_mark := apostrophe; sp4 := [];
     seconds_int := lit "55"; seconds_frac := Some (lit "54"); sp5 := [];
     second_mark := quotation; sp6 := lit " "; hemisphere := 78%N; sp7 := [] |}.

(** 10^309 degrees, no minutes, no seconds, north. *)
Definition huge_degrees_text : text :=
  {| sp0 := []; degrees_text := 49%N :: repeat 48%N 309; sp1 := lit " ";
     deg_word := lit "deg"; sp2 := lit " "; minutes_text := lit "0"; sp3 := [];
     minute_mark := apostrophe; sp4 := lit " ";
     seconds_int := lit "0"; seconds_frac := None; sp5 := [];
     second_mark := quotation; sp6 := lit " "; hemisphere := 78%N; sp7 := [] |}.

(** 10 deg 75' 30 N. *)
Definition minutes_75 : pystr := lit "10 deg 75' 30" ++ [quotation] ++ lit " N".

End Examples.

(** ** Rows, fields and outcomes *)

Module Rows.

Import Dms.

Local Open Scope string_scope.
Local Open Scope list_scope.

(** The two raw fields [process_row] reads. *)
Definition lat_dms (r : row) : value := row_get r "GPSLatitude" (PyStr []).
Definition lng_dms (r : row) : value := row_get r "GPSLongitude" (PyStr []).

(** The row of a record without coordinates, and the row of an exception. *)
Definition no_coordinates : processed :=
  {| address := lit "No coordinates available";
     latitude := PyNone; longitude := PyNone |}.

Definition error_row (e : exn) : processed :=
  {| address := lit "Error: " ++ str_exn e; latitude := PyNone; longitude := PyNone |}.

(** The guard of [process_row] lets the field through. *)
Definition present (v : value) : bool := negb (isna v) && truthy v.

(** What the row holds under a label, if anything. *)
Fixpoint field (r : row) (key : string) : option value :=
  match r with
  | [] => None
  | (k, v) :: r' => if String.eqb k key then Some v else field r' key
  end.

(** The field is missing, empty, or the null sentinel ([None] or NaN). *)
Inductive no_value : option value -> Prop :=
| missing : no_value None
| empty : no_value (Some (PyStr []))
| null_none : no_value (Some PyNone)
| null_nan : no_value (Some (PyFloat S754_nan)).

(** A string the pattern does not match, once stripped. *)
Definition malformed (v : value) : bool :=
  match v with
  | PyStr s =>
      match re_match dms_flags dms_pattern (strip s) with
      | None => true
      | Some _ => false
      end
  | _ => false
  end.

(** The parser raises on the value. *)
Definition raises (v : value) : bool :=
  match parse_dms v with
  | Raise _ => true
  | Ok _ => false
  end.

(** A truthy value that is neither null nor a string. *)
Definition non_string (v : value) : bool := present v && negb (isinstance_str v).

Definition is_geocode_call (ev : event) : bool :=
  match ev with CallGeocode _ _ => true | CallParse _ => false end.

(** A client that finds nothing. *)
Definition empty_handed : gmaps_client := {| reverse_geocode := fun _ _ _ => Ok [] |}.

(** Example rows: a number as latitude, no longitude at all, a malformed
    latitude, and the row of the specification. *)
Definition number_row : row :=
  [("SourceFile", PyStr (lit "img1.jpg")); ("GPSLatitude", PyInt 5);
   ("GPSLongitude", PyStr (render Examples.example_text))].

Definition no_longitude_row : row :=
  [("SourceFile", PyStr (lit "img1.jpg"));
   ("GPSLatitude", PyStr (render Examples.example_text))].

Definition malformed_row : row :=
  [("SourceFile", PyStr (lit "img1.jpg"));
   ("GPSLatitude", PyStr (lit "37 deg 36' N"));
   ("GPSLongitude", PyStr (render Examples.example_text))].

(** A malformed latitude and no longitude at all. *)
Definition malformed_latitude_row : row :=
  [("SourceFile", PyStr (lit "img1.jpg"));
   ("GPSLatitude", PyStr (lit "37 deg 36' N"))].

Definition example_row : row :=
  [("SourceFile", PyStr (lit "img1.jpg"));
   ("GPSLatitude", PyStr (render Examples.example_text));
   ("GPSLongitude", PyStr (lit "122 deg 25' 9.85" ++ [quotation] ++ lit " W"))].

(** A client that answers every query with one address. *)
Definition cupertino : gmaps_client :=
  {| reverse_geocode := fun _ _ _ =>
       Ok [[(lit "formatted_address", lit "1 Infinite Loop, Cupertino, CA")]] |}.

(** A client whose every query fails. *)
Definition failing : gmaps_client :=
  {| reverse_geocode := fun _ _ _ => Raise (Failure (lit "timed out")) |}.

(** The [SourceFile] column of a table. *)
Definition source_files (df : DataFrame) : list value :=
  map (fun cells => row_get (series (columns df) cells) "SourceFile" (PyFloat S754_nan))
      (data df).

(** A table of three rows, and the file system that holds it. *)
Definition example_table : DataFrame :=
  {| columns := ["SourceFile"; "GPSLatitude"; "GPSLongitude"];
     data :=
       [ [PyStr (lit "img1.jpg"); PyStr (render Examples.example_text);
          PyStr (lit "122 deg 25' 9.85" ++ [quotation] ++ lit " W")];
         [PyStr (lit "img2.jpg"); PyInt 5; PyStr (lit "nowhere")];
         [PyStr (lit "img3.jpg"); PyFloat S754_nan; PyFloat S754_nan] ] |}.

Definition example_files (path : pystr) : option DataFrame :=
  if Str.eqb path (lit "gps.csv") then Some example_table else None.

End Rows.

(** ** Outcomes, calls and clients *)

Module Outcomes.

Import Dms Rows.

Local Open Scope string_scope.
Local Open Scope list_scope.

(** The hemisphere letters whose upper case is S or W, among those the
    pattern lets through. *)
Definition southerly (h : N) : bool :=
  existsb (N.eqb h) [83; 87; 115; 119; long_s]%N.

(** The float of [-1], and the effect of [decimal *= -1] on a result. *)
Definition minus_one : float := S754_finite true 4503599627370496 (-52).

Definition negated (r : result value) : result value :=
  match r with
  | Ok (PyFloat a) => Ok (PyFloat (float_mul a minus_one))
  | _ => r
  end.

(** The message of [int] on a text of [n] digits, more than 4300. *)
Definition limit_message (n : nat) : pystr :=
  lit "Exceeds the limit (4300 digits) for integer string conversion: value has "
  ++ str_of_nat n
  ++ lit " digits; use sys.set_int_max_str_digits() to increase the limit".

(** Two texts of digits with the same decimal values, digit by digit,
    whatever the scripts of the digits. *)
Definition same_digits (s s' : pystr) : Prop :=
  map decimal_value s = map decimal_value s'.

Definition same_fraction (f f' : option pystr) : Prop :=
  match f, f' with
  | Some d, Some d' => same_digits d d'
  | None, None => True
  | _, _ => False
  end.

(** The text of the specification in Arabic-Indic digits. *)
Definition arabic_indic_text : text :=
  {| sp0 := []; degrees_text := [1635; 1639]%N; sp1 := lit " ";
     deg_word := lit "deg"; sp2 := lit " ";
     minutes_text := [1635; 1638]%N; sp3 := []; minute_mark := apostrophe;
     sp4 := lit " ";
     seconds_int := [1637; 1637]%N; seconds_frac := Some [1637; 1636]%N;
     sp5 := []; second_mark := quotation; sp6 := lit " ";
     hemisphere := 78%N; sp7 := [] |}.

(** The dictionary has the key. *)
Definition has_key (d : geocode_result) (key : pystr) : bool :=
  existsb (fun kv => Str.eqb (fst kv) key) d.

(** The calls of the client in a trace. *)
Definition geocode_calls (tr : trace) : nat :=
  length (filter is_geocode_call tr).

(** A client whose replies do not depend on the calls made before. *)
Definition stateless (c : gmaps_client) : Prop :=
  forall tr tr' lat lng,
    reverse_geocode c tr lat lng = reverse_geocode c tr' lat lng.

(** A coordinate of an output row: null, or a float that is not null. *)
Definition coordinate (v : value) : Prop :=
  isna v = true \/ exists a, v = PyFloat a /\ isna v = false.

(** Two cells that are equal, or both null ([None] or NaN). *)
Definition same_cell (v w : value) : Prop :=
  v = w \/ (isna v = true /\ isna w = true).

(** A client whose results carry no address. *)
Definition keyless : gmaps_client :=
  {| reverse_geocode := fun _ _ _ => Ok [[(lit "place_id", lit "ChIJ")]] |}.

(** A client that answers with two places. *)
Definition two_places : gmaps_client :=
  {| reverse_geocode := fun _ _ _ =>
       Ok [[(lit "formatted_address", lit "1 Infinite Loop, Cupertino, CA")];
           [(lit "formatted_address", lit "Cupertino, CA")]] |}.

(** A table without the column of file names. *)
Definition unnamed_table : DataFrame :=
  {| columns := ["GPSLatitude"; "GPSLongitude"];
     data := [ [PyStr (render Examples.example_text);
                PyStr (lit "122 deg 25' 9.85" ++ [quotation] ++ lit " W")] ] |}.

End Outcomes.

(** * Properties *)

(** ** Character classes *)

Module ClassFacts.

Local Open Scope N_scope.

Lemma all_from_spec (P : N -> bool) (n : nat) :
  forall c, all_from P c n = true ->
  forall x, c <= x -> x < c + N.of_nat n -> P x = true.
Proof.
  induction n as [|n IH]; intros c H x Hlo Hhi.
  - lia.
  - cbn [all_from] in H. apply andb_true_iff in H as [H0 H1].
    destruct (N.eq_dec x c) as [->|Hne]; [exact H0|].
    apply (IH (N.succ c)); [exact H1|lia|lia].
Qed.

Lemma all_below_spec (P : N -> bool) (b : N) :
  all_below P b = true -> forall c, c < b -> P c = true.
Proof.
  unfold all_below. intros H c Hc.
  apply (all_from_spec P (N.to_nat b) 0 H); lia.
Qed.

Lemma isspace_bound c : isspace c = true -> c < 12289.
Proof.
  unfold isspace. intros H.
  destruct (N.ltb_spec c 12289) as [Hlt|Hge]; [exact Hlt|exfalso].
  repeat (apply orb_true_iff in H as [H|H]);
    repeat (apply andb_true_iff in H as [? H]);
    repeat match goal with
           | [ E : (_ <=? _) = true |- _ ] => apply N.leb_le in E
           | [ E : (_ =? _) = true |- _ ] => apply N.eqb_eq in E
           end; lia.
Qed.

Lemma isdecimal_bound c : isdecimal c = true -> c < 130042.
Proof.
  unfold isdecimal, decimal_value. intros H.
  destruct (find _ decimal_zeros) as [z|] eqn:F; [|discriminate].
  apply find_some in F as [Hin Hz].
  apply andb_true_iff in Hz as [_ Hz]. apply N.ltb_lt in Hz.
  assert (Hb : forallb (fun z => z <=? 130032) decimal_zeros = true) by reflexivity.
  rewrite forallb_forall in Hb. apply Hb in Hin. apply N.leb_le in Hin. lia.
Qed.

(** No white-space character is a decimal digit. *)
Lemma space_not_decimal c : isspace c = true -> isdecimal c = false.
Proof.
  intros H.
  assert (A : all_below (fun c => implb (isspace c) (negb (isdecimal c))) 12289 = true)
    by (vm_compute; reflexivity).
  pose proof (all_below_spec _ _ A c (isspace_bound c H)) as B. cbv beta in B.
  rewrite H in B. cbn in B. apply negb_true_iff. exact B.
Qed.

Lemma decimal_not_space c : isdecimal c = true -> isspace c = false.
Proof.
  intros H. destruct (isspace c) eqn:E; [|reflexivity].
  apply space_not_decimal in E. congruence.
Qed.

End ClassFacts.

(** ** The matcher on runs of one class *)

Module MatchFacts.

Lemma stops_app (p q : N -> bool) (w tl : pystr) :
  (forall c, q c = true -> p c = false) ->
  forallb q w = true -> stops p tl -> stops p (w ++ tl).
Proof.
  intros Hpq Hw Htl. destruct w as [|c w]; [exact Htl|].
  cbn in *. apply andb_true_iff in Hw as [Hc _]. auto.
Qed.

Lemma one_ok (p : N -> bool) (k : cont) n x tl g :
  p x = true -> one p k (at_ n (x :: tl) g) = k (at_ (S n) tl g).
Proof. intros H. unfold one, at_. cbn. rewrite H. reflexivity. Qed.

Lemma one_stops (p : N -> bool) (k : cont) n tl g :
  stops p tl -> one p k (at_ n tl g) = None.
Proof.
  intros H. unfold one, at_. cbn. destruct tl as [|c tl]; [reflexivity|].
  cbn in H. rewrite H. reflexivity.
Qed.

(** The greedy iteration over a run [w] of the class that stops at [tl]
    hands the continuation the state after the whole run, and returns its
    answer when it has one. *)
Lemma iterate_run (p : N -> bool) (k : cont) (tl : pystr) g res :
  forall w fuel n,
    forallb p w = true -> stops p tl ->
    (length (w ++ tl) <= fuel)%nat ->
    k (at_ (n + length w) tl g) = Some res ->
    iterate (one p) fuel k (at_ n (w ++ tl) g) = Some res.
Proof.
  induction w as [|x w IH]; intros fuel n Hw Htl Hfuel Hk.
  - cbn [app length] in *. rewrite Nat.add_0_r in Hk.
    destruct fuel as [|fuel]; cbn [iterate]; [exact Hk|].
    rewrite one_stops by exact Htl. exact Hk.
  - cbn [forallb] in Hw. apply andb_true_iff in Hw as [Hx Hw].
    destruct fuel as [|fuel]; [cbn in Hfuel; lia|].
    cbn [iterate app]. rewrite one_ok by exact Hx.
    cbn [rest at_ length].
    replace (length (w ++ tl) <? S (length (w ++ tl)))%nat with true
      by (symmetry; apply Nat.ltb_lt; lia).
    rewrite (IH fuel (S n)); [reflexivity|exact Hw|exact Htl| |].
    + cbn in Hfuel. lia.
    + cbn [length] in Hk. rewrite <- Nat.add_succ_comm in Hk. exact Hk.
Qed.

Section Runs.

Variable fl : flags.
Variables (k : cont) (tl : pystr) (g : list (nat * pystr)) (res : mstate).

Lemma star_space w n :
  forallb isspace w = true -> stops isspace tl ->
  k (at_ (n + length w) tl g) = Some res ->
  run fl (Star Space) k (at_ n (w ++ tl) g) = Some res.
Proof.
  intros Hw Htl Hk. cbn [run].
  change (fun (k0 : cont) (st : mstate) => one isspace k0 st) with (one isspace).
  apply iterate_run; auto.
Qed.

Lemma plus_space w n :
  w <> [] -> forallb isspace w = true -> stops isspace tl ->
  k (at_ (n + length w) tl g) = Some res ->
  run fl (Plus Space) k (at_ n (w ++ tl) g) = Some res.
Proof.
  intros Hne Hw Htl Hk. destruct w as [|x w]; [congruence|].
  cbn [forallb] in Hw. apply andb_true_iff in Hw as [Hx Hw].
  cbn [run app]. rewrite one_ok by exact Hx. cbn [rest at_].
  change (fun (k0 : cont) (st : mstate) => one isspace k0 st) with (one isspace).
  apply iterate_run; auto.
  cbn [length] in Hk. rewrite <- Nat.add_succ_comm in Hk. exact Hk.
Qed.

Lemma plus_digit w n :
  w <> [] -> forallb isdecimal w = true -> stops isdecimal tl ->
  k (at_ (n + length w) tl g) = Some res ->
  run fl (Plus Digit) k (at_ n (w ++ tl) g) = Some res.
Proof.
  intros Hne Hw Htl Hk. destruct w as [|x w]; [congruence|].
  cbn [forallb] in Hw. apply andb_true_iff in Hw as [Hx Hw].
  cbn [run app]. rewrite one_ok by exact Hx. cbn [rest at_].
  change (fun (k0 : cont) (st : mstate) => one isdecimal k0 st) with (one isdecimal).
  apply iterate_run; auto.
  cbn [length] in Hk. rewrite <- Nat.add_succ_comm in Hk. exact Hk.
Qed.

Lemma chars_ok cs x n :
  char_in fl cs x = true ->
  k (at_ (S n) tl g) = Some res ->
  run fl (Class cs) k (at_ n (x :: tl) g) = Some res.
Proof. intros Hx Hk. cbn [run]. rewrite one_ok by exact Hx. exact Hk. Qed.

Lemma lit_ok c x n :
  char_in fl [c] x = true ->
  k (at_ (S n) tl g) = Some res ->
  run fl (Lit c) k (at_ n (x :: tl) g) = Some res.
Proof. intros Hx Hk. cbn [run]. rewrite one_ok by exact Hx. exact Hk. Qed.

End Runs.

Lemma star_space_end fl (k : cont) g res w n :
  forallb isspace w = true ->
  k (at_ (n + length w) [] g) = Some res ->
  run fl (Star Space) k (at_ n w g) = Some res.
Proof.
  intros Hw Hk. rewrite <- (app_nil_r w).
  apply star_space; [exact Hw|exact I|exact Hk].
Qed.

Lemma firstn_run (w tl : pystr) n : firstn (n + length w - n) (w ++ tl) = w.
Proof.
  replace (n + length w - n)%nat with (length w) by lia.
  induction w as [|x w IH]; cbn; [reflexivity|]. now rewrite IH.
Qed.

(** *** What a successful run has consumed *)

Lemma one_inv (p : N -> bool) (k : cont) n s g res :
  one p k (at_ n s g) = Some res ->
  exists x tl, s = x :: tl /\ p x = true /\ k (at_ (S n) tl g) = Some res.
Proof.
  unfold one, at_. cbn [rest pos groups]. destruct s as [|x tl]; [discriminate|].
  destruct (p x) eqn:E; [|discriminate]. intros H. now exists x, tl.
Qed.

Lemma iterate_inv (p : N -> bool) (k : cont) g res :
  forall fuel n s,
    iterate (one p) fuel k (at_ n s g) = Some res ->
    exists w tl, s = w ++ tl /\ forallb p w = true
                 /\ k (at_ (n + length w) tl g) = Some res.
Proof.
  induction fuel as [|fuel IH]; intros n s H; cbn [iterate] in H.
  - exists [], s. cbn. now rewrite Nat.add_0_r.
  - destruct (one p _ (at_ n s g)) as [r|] eqn:E.
    + inversion H; subst r. apply one_inv in E as (x & tl & -> & Hx & E).
      cbn [rest at_ length] in E.
      destruct (_ <? _)%nat; [|discriminate].
      apply IH in E as (w & tl' & -> & Hw & Hk).
      exists (x :: w), tl'. cbn [app forallb length]. rewrite Hx, Hw.
      rewrite <- Nat.add_succ_comm. auto.
    + exists [], s. cbn. now rewrite Nat.add_0_r.
Qed.

Section Inversions.

Variable fl : flags.
Variables (k : cont) (g : list (nat * pystr)) (res : mstate).

Lemma star_space_inv n s :
  run fl (Star Space) k (at_ n s g) = Some res ->
  exists w tl, s = w ++ tl /\ forallb isspace w = true
               /\ k (at_ (n + length w) tl g) = Some res.
Proof.
  cbn [run].
  change (fun (k0 : cont) (st : mstate) => one isspace k0 st) with (one isspace).
  apply iterate_inv.
Qed.

Lemma plus_inv (p : N -> bool) n s :
  one p (fun st' => iterate (one p) (length (rest st')) k st') (at_ n s g) = Some res ->
  exists w tl, s = w ++ tl /\ w <> [] /\ forallb p w = true
               /\ k (at_ (n + length w) tl g) = Some res.
Proof.
  intros H. apply one_inv in H as (x & tl & -> & Hx & H).
  cbn [rest at_] in H. apply iterate_inv in H as (w & tl' & -> & Hw & Hk).
  exists (x :: w), tl'. cbn [app forallb length]. rewrite Hx, Hw.
  rewrite <- Nat.add_succ_comm. repeat split; auto. discriminate.
Qed.

Lemma plus_space_inv n s :
  run fl (Plus Space) k (at_ n s g) = Some res ->
  exists w tl, s = w ++ tl /\ w <> [] /\ forallb isspace w = true
               /\ k (at_ (n + length w) tl g) = Some res.
Proof.
  cbn [run].
  change (fun (k0 : cont) (st : mstate) => one isspace k0 st) with (one isspace).
  apply plus_inv.
Qed.

Lemma plus_digit_inv n s :
  run fl (Plus Digit) k (at_ n s g) = Some res ->
  exists w tl, s = w ++ tl /\ w <> [] /\ forallb isdecimal w = true
               /\ k (at_ (n + length w) tl g) = Some res.
Proof.
  cbn [run].
  change (fun (k0 : cont) (st : mstate) => one isdecimal k0 st) with (one isdecimal).
  apply plus_inv.
Qed.

Lemma chars_inv cs n s :
  run fl (Class cs) k (at_ n s g) = Some res ->
  exists x tl, s = x :: tl /\ char_in fl cs x = true
               /\ k (at_ (S n) tl g) = Some res.
Proof. cbn [run]. apply one_inv. Qed.

Lemma lit_inv c n s :
  run fl (Lit c) k (at_ n s g) = Some res ->
  exists x tl, s = x :: tl /\ char_in fl [c] x = true
               /\ k (at_ (S n) tl g) = Some res.
Proof. cbn [run]. apply one_inv. Qed.

Lemma opt_inv r st :
  run fl (Opt r) k st = Some res ->
  run fl r k st = Some res \/ k st = Some res.
Proof.
  cbn [run]. destruct (run fl r k st) as [r'|]; [left|right]; auto.
Qed.

Lemma eol_inv n s :
  run fl Eol k (at_ n s g) = Some res ->
  (s = [] \/ s = [line_feed]) /\ k (at_ n s g) = Some res.
Proof.
  cbn [run rest at_]. destruct s as [|c [|d s]]; try discriminate; [auto|].
  destruct (N.eqb_spec c line_feed); [subst; auto|discriminate].
Qed.

End Inversions.

End MatchFacts.

(** ** The pattern on well-formed texts *)

Module DmsFacts.

Import ClassFacts MatchFacts Dms.

Local Open Scope N_scope.

Lemma tolower_inv c l :
  tolower c = l ->
  c = l \/ (65 <= c <= 90 /\ l = c + 32) \/ (c = 304 /\ l = 105)
  \/ (c = 8490 /\ l = 107).
Proof.
  unfold tolower. intros H.
  destruct ((65 <=? c) && (c <=? 90)) eqn:E1.
  - apply andb_true_iff in E1 as [A B]. apply N.leb_le in A, B. lia.
  - destruct (N.eqb_spec c 304); [lia|].
    destruct (N.eqb_spec c 8490); [lia|]. lia.
Qed.

(** A character that lower-cases to a small ASCII letter is that letter
    or its capital. *)
Lemma tolower_letter c l :
  97 <= l <= 122 -> l <> 105 -> l <> 107 ->
  tolower c = l -> c = l \/ c = l - 32.
Proof. intros Hl H1 H2 H. apply tolower_inv in H. lia. Qed.

Lemma is_deg_inv w :
  is_deg w = true ->
  exists a b c, w = [a; b; c]
    /\ (a = 100 \/ a = 68) /\ (b = 101 \/ b = 69) /\ (c = 103 \/ c = 71).
Proof.
  unfold is_deg. change (lit "deg") with [100; 101; 103].
  destruct w as [|a [|b [|c [|d w]]]]; cbn [map Str.eqb];
    rewrite ?andb_false_r; try discriminate.
  intros H. rewrite andb_true_r in H.
  apply andb_true_iff in H as [Ha H]. apply andb_true_iff in H as [Hb Hc].
  apply N.eqb_eq in Ha, Hb, Hc.
  exists a, b, c. split; [reflexivity|].
  pose proof (tolower_letter a 100 ltac:(lia) ltac:(lia) ltac:(lia) Ha).
  pose proof (tolower_letter b 101 ltac:(lia) ltac:(lia) ltac:(lia) Hb).
  pose proof (tolower_letter c 103 ltac:(lia) ltac:(lia) ltac:(lia) Hc).
  repeat split; lia.
Qed.

Lemma is_minute_mark_inv c :
  is_minute_mark c = true -> c = apostrophe \/ c = prime.
Proof.
  unfold is_minute_mark. intros H. apply orb_true_iff in H as [H|H];
    apply N.eqb_eq in H; auto.
Qed.

Lemma is_second_mark_inv c :
  is_second_mark c = true -> c = quotation \/ c = double_prime.
Proof.
  unfold is_second_mark. intros H. apply orb_true_iff in H as [H|H];
    apply N.eqb_eq in H; auto.
Qed.

Lemma is_hemisphere_inv h :
  is_hemisphere h = true -> In h [78; 83; 69; 87; 110; 115; 101; 119].
Proof.
  unfold is_hemisphere. intros H. apply existsb_exists in H as [x [Hin Hx]].
  apply N.eqb_eq in Hx. subst x. exact Hin.
Qed.

(** No white-space character matches the full stop of the pattern. *)
Lemma space_not_stop c : isspace c = true -> char_in dms_flags [full_stop] c = false.
Proof.
  intros H.
  assert (A : all_below
                (fun c => implb (isspace c) (negb (char_in dms_flags [full_stop] c)))
                12289 = true) by (vm_compute; reflexivity).
  pose proof (all_below_spec _ _ A c (isspace_bound c H)) as B. cbv beta in B.
  rewrite H in B. cbn [implb] in B. apply negb_true_iff. exact B.
Qed.

Lemma digits_inv s :
  digits s = true -> s <> [] /\ forallb isdecimal s = true.
Proof.
  unfold digits. intros H. apply andb_true_iff in H as [H1 H2].
  split; [|exact H2]. destruct s; [discriminate|congruence].
Qed.

Lemma nonempty_inv s : nonempty s = true -> s <> [].
Proof. destruct s; [discriminate|congruence]. Qed.

(** The first character of a string of digits is no white space. *)
Lemma stops_space_digits s tl : digits s = true -> stops isspace (s ++ tl).
Proof.
  intros H. apply digits_inv in H as [Hne Hs]. destruct s as [|x s]; [congruence|].
  cbn in *. apply andb_true_iff in Hs as [Hx _]. now apply decimal_not_space.
Qed.

Lemma run_seq fl a b k st : run fl (Seq a b) k st = run fl a (run fl b k) st.
Proof. reflexivity. Qed.

Lemma run_group fl i r k st :
  run fl (Group i r) k st = run fl r (fun st' => k (close_group i st st')) st.
Proof. reflexivity. Qed.

Lemma run_bol fl k s g : run fl Bol k (at_ 0 s g) = k (at_ 0 s g).
Proof. reflexivity. Qed.

Lemma run_eol fl k n g : run fl Eol k (at_ n [] g) = k (at_ n [] g).
Proof. reflexivity. Qed.

Lemma opt_taken fl r k st res :
  run fl r k st = Some res -> run fl (Opt r) k st = Some res.
Proof. intros H. cbn [run]. now rewrite H. Qed.

Lemma opt_skipped fl r k st res :
  run fl r k st = None -> k st = Some res -> run fl (Opt r) k st = Some res.
Proof. intros H Hk. cbn [run]. now rewrite H. Qed.

Lemma close_group_at i n n' s w tl g g' :
  s = w ++ tl -> n' = (n + length w)%nat ->
  close_group i (at_ n s g) (at_ n' tl g') = at_ n' tl ((i, w) :: g').
Proof.
  intros -> ->. unfold close_group, at_. cbn [pos rest groups].
  now rewrite firstn_run.
Qed.

Lemma dms_pattern_parts k st :
  run dms_flags dms_pattern k st
  = run dms_flags dms_head (run dms_flags dms_seconds (run dms_flags dms_tail k)) st.
Proof. reflexivity. Qed.

Lemma minute_mark_facts c :
  is_minute_mark c = true ->
  isspace c = false /\ isdecimal c = false
  /\ char_in dms_flags [apostrophe; prime] c = true.
Proof.
  intros H. apply is_minute_mark_inv in H as [->| ->]; repeat split; reflexivity.
Qed.

Lemma second_mark_facts c :
  is_second_mark c = true ->
  isspace c = false /\ isdecimal c = false
  /\ char_in dms_flags [quotation; double_prime] c = true
  /\ char_in dms_flags [full_stop] c = false.
Proof.
  intros H. apply is_second_mark_inv in H as [->| ->]; repeat split; reflexivity.
Qed.

(** The characters the class of the hemisphere matches: the four letters
    in either case, and the long s. *)
Lemma matches_hemisphere_inv h :
  matches_hemisphere h = true ->
  In h [78; 83; 69; 87; 110; 115; 101; 119; long_s].
Proof.
  unfold matches_hemisphere, char_in. cbn [ignorecase dms_flags existsb].
  change (tolower 78) with 110. change (tolower 83) with 115.
  change (tolower 69) with 101. change (tolower 87) with 119.
  change (ignorecase_fixes 110) with (@nil N).
  change (ignorecase_fixes 115) with [long_s].
  change (ignorecase_fixes 101) with (@nil N).
  change (ignorecase_fixes 119) with (@nil N).
  cbn [existsb]. rewrite !orb_false_r. intros H.
  repeat (apply orb_true_iff in H as [H|H]);
    apply N.eqb_eq in H;
    apply tolower_inv in H; unfold long_s in *; cbn [In]; lia.
Qed.

Lemma is_hemisphere_matches h :
  is_hemisphere h = true -> matches_hemisphere h = true.
Proof.
  intros H. apply is_hemisphere_inv in H. cbn [In] in H.
  repeat (destruct H as [<-|H]; [reflexivity|]). contradiction.
Qed.

Lemma matches_hemisphere_facts h :
  matches_hemisphere h = true ->
  isspace h = false /\ char_in dms_flags [78; 83; 69; 87] h = true.
Proof.
  intros H. split; [|exact H]. apply matches_hemisphere_inv in H. cbn [In] in H.
  repeat (destruct H as [<-|H]; [reflexivity|]). contradiction.
Qed.

Lemma tokens_ok_match t : tokens_ok t = true -> tokens_match t = true.
Proof.
  unfold tokens_ok, tokens_match. intros H. apply andb_true_iff in H as [H Hh].
  rewrite H. now apply is_hemisphere_matches.
Qed.

Lemma well_formed_shape t : well_formed t = true -> shape t = true.
Proof.
  unfold well_formed, shape. intros H. rewrite !andb_true_iff in H.
  destruct H as [[T S] N]. now rewrite (tokens_ok_match _ T), S, N.
Qed.

(** Replace the position of the state the continuation is called at by an
    equal one. *)
Ltac at_position Hk :=
  match goal with
  | [ |- _ (at_ ?e _ _) = _ ] =>
      match type of Hk with
      | _ (at_ ?e' _ _) = _ =>
          replace e with e'; [exact Hk|rewrite ?length_app; cbn [length]; lia]
      end
  end.

(** The head of the pattern consumes the degrees, the word deg, the
    minutes, their mark and the white space after it. *)
Lemma match_head w0 dD w1 dw w2 dM w3 m1 w4 tl (k : cont) res :
  spaces w0 = true ->
  digits dD = true -> spaces w1 = true -> is_deg dw = true ->
  nonempty w2 = true -> spaces w2 = true ->
  digits dM = true -> spaces w3 = true -> is_minute_mark m1 = true ->
  nonempty w4 = true -> spaces w4 = true ->
  stops isspace tl ->
  k (at_ (length (w0 ++ dD ++ w1 ++ dw ++ w2 ++ dM ++ w3 ++ m1 :: w4)) tl
       [(2%nat, dM); (1%nat, dD)]) = Some res ->
  run dms_flags dms_head k
    (at_ 0 (w0 ++ dD ++ w1 ++ dw ++ w2 ++ dM ++ w3 ++ m1 :: w4 ++ tl) []) = Some res.
Proof.
  unfold spaces. intros H0 HdD H1 Hdw N2 H2 HdM H3 Hm1 N4 H4 Htl Hk.
  apply nonempty_inv in N2, N4.
  apply is_deg_inv in Hdw as (a & b & c & -> & Ha & Hb & Hc).
  apply minute_mark_facts in Hm1 as (Sm1 & Dm1 & Cm1).
  pose proof (digits_inv _ HdD) as [NdD FdD].
  pose proof (digits_inv _ HdM) as [NdM FdM].
  assert (Da : isdecimal a = false /\ isspace a = false
               /\ char_in dms_flags [100] a = true)
    by (destruct Ha as [->| ->]; repeat split; reflexivity).
  assert (Db : char_in dms_flags [101] b = true)
    by (destruct Hb as [->| ->]; reflexivity).
  assert (Dc : char_in dms_flags [103] c = true)
    by (destruct Hc as [->| ->]; reflexivity).
  destruct Da as (Da1 & Da2 & Da3).
  unfold dms_head. cbn [sequence].
  rewrite run_seq, run_bol.
  rewrite run_seq.
  apply star_space; [exact H0|now apply stops_space_digits|].
  rewrite run_seq, run_group.
  apply plus_digit; [exact NdD|exact FdD| |].
  { apply stops_app with (q := isspace); [apply space_not_decimal|exact H1|].
    exact Da1. }
  cbv beta. erewrite close_group_at by reflexivity.
  rewrite run_seq. apply star_space; [exact H1|exact Da2|].
  cbn [app].
  rewrite run_seq. apply lit_ok; [exact Da3|].
  rewrite run_seq. apply lit_ok; [exact Db|].
  rewrite run_seq. apply lit_ok; [exact Dc|].
  rewrite run_seq. apply plus_space; [exact N2|exact H2|now apply stops_space_digits|].
  rewrite run_seq, run_group.
  apply plus_digit; [exact NdM|exact FdM| |].
  { apply stops_app with (q := isspace); [apply space_not_decimal|exact H3|].
    exact Dm1. }
  cbv beta. erewrite close_group_at by reflexivity.
  rewrite run_seq. apply star_space; [exact H3|exact Sm1|].
  rewrite run_seq. apply chars_ok; [exact Cm1|].
  apply plus_space; [exact N4|exact H4|exact Htl|].
  at_position Hk.
Qed.

(** The third group takes the seconds, with their fraction if any. *)
Lemma match_seconds si sf tl n g (k : cont) res :
  digits si = true ->
  match sf with None => true | Some f => digits f end = true ->
  stops isdecimal tl -> stops (char_in dms_flags [full_stop]) tl ->
  let sec := si ++ match sf with None => [] | Some f => full_stop :: f end in
  k (at_ (n + length sec) tl ((3%nat, sec) :: g)) = Some res ->
  run dms_flags dms_seconds k (at_ n (sec ++ tl) g) = Some res.
Proof.
  intros Hsi Hsf Hd Hs sec Hk. subst sec.
  pose proof (digits_inv _ Hsi) as [Nsi Fsi].
  unfold dms_seconds. rewrite run_group, run_seq, <- app_assoc.
  destruct sf as [f|].
  - pose proof (digits_inv _ Hsf) as [Nf Ff].
    apply plus_digit; [exact Nsi|exact Fsi|reflexivity|].
    apply opt_taken. rewrite run_seq.
    cbn [app]. apply lit_ok; [reflexivity|].
    apply plus_digit; [exact Nf|exact Ff|exact Hd|].
    cbv beta.
    rewrite (close_group_at 3 _ _ _ (si ++ full_stop :: f));
      [|now rewrite <- app_assoc|rewrite length_app; cbn [length]; lia].
    at_position Hk.
  - cbn [app]. rewrite app_nil_r in Hk.
    apply plus_digit; [exact Nsi|exact Fsi|exact Hd|].
    apply opt_skipped.
    { rewrite run_seq. cbn [run]. apply one_stops. exact Hs. }
    erewrite close_group_at by reflexivity. exact Hk.
Qed.

(** The tail of the pattern consumes the second mark, the hemisphere
    letter and the white space after it, and ends the match. *)
Lemma match_tail w5 m2 w6 h w7 n g :
  spaces w5 = true -> is_second_mark m2 = true ->
  nonempty w6 = true -> spaces w6 = true -> matches_hemisphere h = true ->
  spaces w7 = true ->
  exists p,
    run dms_flags dms_tail Some (at_ n (w5 ++ m2 :: w6 ++ h :: w7) g)
    = Some (at_ p [] ((4%nat, [h]) :: g)).
Proof.
  unfold spaces. intros H5 Hm2 N6 H6 Hh H7.
  apply nonempty_inv in N6.
  apply second_mark_facts in Hm2 as (Sm2 & Dm2 & Cm2 & Fm2).
  apply matches_hemisphere_facts in Hh as (Sh & Ch).
  eexists. unfold dms_tail. cbn [sequence].
  rewrite run_seq. apply star_space; [exact H5|exact Sm2|].
  rewrite run_seq. apply chars_ok; [exact Cm2|].
  rewrite run_seq. apply plus_space; [exact N6|exact H6|exact Sh|].
  rewrite run_seq, run_group. apply chars_ok; [exact Ch|].
  rewrite (close_group_at 4 _ _ _ [h]); [|reflexivity|cbn [length]; lia].
  rewrite run_seq. apply star_space_end; [exact H7|].
  rewrite run_eol. reflexivity.
Qed.

(** The pattern matches every text of the shape, and its groups are the
    four tokens. *)
Lemma match_render t :
  shape t = true ->
  exists m, re_match dms_flags dms_pattern (render t) = Some m
            /\ groups m = captured t.
Proof.
  destruct t as [w0 dD w1 dw w2 dM w3 m1 w4 si sf w5 m2 w6 h w7].
  unfold shape, tokens_match, loosely_spaced, separated, render, core,
    seconds_text, captured.
  cbn [sp0 degrees_text sp1 deg_word sp2 minutes_text sp3 minute_mark sp4
       seconds_int seconds_frac sp5 second_mark sp6 hemisphere sp7].
  intros H. rewrite !andb_true_iff in H.
  destruct H as [[HT HS] HN].
  destruct HT as [[[[[[[HdD Hdw] HdM] Hm1] Hsi] Hsf] Hm2] Hh].
  destruct HS as [[[[[[[H0 H1] H2] H3] H4] H5] H6] H7].
  destruct HN as [[N2 N4] N6].
  set (sec := si ++ match sf with None => [] | Some f => full_stop :: f end).
  destruct (match_tail w5 m2 w6 h w7
              (length (w0 ++ dD ++ w1 ++ dw ++ w2 ++ dM ++ w3 ++ m1 :: w4)
               + length sec)
              [(3%nat, sec); (2%nat, dM); (1%nat, dD)] H5 Hm2 N6 H6 Hh H7)
    as [p Hp].
  exists (at_ p [] [(4%nat, [h]); (3%nat, sec); (2%nat, dM); (1%nat, dD)]).
  split; [|reflexivity].
  unfold re_match. rewrite dms_pattern_parts.
  change {| pos := 0; rest := ?s; groups := [] |} with (at_ 0 s []).
  repeat (progress (rewrite <- ?app_assoc; cbn [app])).
  apply match_head; auto.
  { subst sec. rewrite <- app_assoc. now apply stops_space_digits. }
  apply second_mark_facts in Hm2 as (Sm2 & Dm2 & Cm2 & Fm2).
  apply match_seconds; auto.
  - apply stops_app with (q := isspace); [apply space_not_decimal|exact H5|].
    exact Dm2.
  - apply stops_app with (q := isspace); [apply space_not_stop|exact H5|].
    exact Fm2.
Qed.

Lemma shape_trimmed t : shape t = true -> shape (trimmed t) = true.
Proof.
  unfold shape, tokens_match, loosely_spaced, separated, trimmed.
  cbn [sp0 degrees_text sp1 deg_word sp2 minutes_text sp3 minute_mark sp4
       seconds_int seconds_frac sp5 second_mark sp6 hemisphere sp7].
  intros H. rewrite !andb_true_iff in H. rewrite !andb_true_iff.
  cbn [spaces forallb]. tauto.
Qed.

(** The pattern matches the core of a text of the shape. *)
Lemma match_core t :
  shape t = true ->
  exists m, re_match dms_flags dms_pattern (core t) = Some m
            /\ groups m = captured t.
Proof.
  intros H. destruct (match_render _ (shape_trimmed _ H)) as (m & Hm & Hg).
  exists m. split; [|exact Hg].
  unfold render in Hm. cbn [sp0 sp7 trimmed app] in Hm.
  now rewrite app_nil_r in Hm.
Qed.

(** *** The texts the pattern matches *)

Lemma char_in_single c a :
  ignorecase_fixes (tolower c) = [] ->
  char_in dms_flags [c] a = (tolower a =? tolower c).
Proof.
  unfold char_in. cbn [ignorecase dms_flags existsb]. intros ->.
  cbn [existsb]. now rewrite !orb_false_r.
Qed.

Lemma deg_chars_inv a b c :
  char_in dms_flags [100] a = true -> char_in dms_flags [101] b = true ->
  char_in dms_flags [103] c = true -> is_deg [a; b; c] = true.
Proof.
  rewrite !char_in_single by reflexivity.
  change (tolower 100) with 100. change (tolower 101) with 101.
  change (tolower 103) with 103.
  intros Ha Hb Hc. unfold is_deg. change (lit "deg") with [100; 101; 103].
  cbn [map Str.eqb]. now rewrite Ha, Hb, Hc.
Qed.

Lemma stop_char_inv x : char_in dms_flags [full_stop] x = true -> x = full_stop.
Proof.
  rewrite char_in_single by reflexivity. change (tolower full_stop) with 46.
  intros H. apply N.eqb_eq, tolower_inv in H. unfold full_stop. lia.
Qed.

Lemma minute_mark_char_inv x :
  char_in dms_flags [apostrophe; prime] x = true -> is_minute_mark x = true.
Proof.
  unfold char_in. cbn [ignorecase dms_flags existsb].
  change (tolower apostrophe) with 39. change (tolower prime) with 8242.
  change (ignorecase_fixes 39) with (@nil N).
  change (ignorecase_fixes 8242) with (@nil N).
  cbn [existsb]. rewrite !orb_false_r. intros H.
  unfold is_minute_mark, apostrophe, prime.
  apply orb_true_iff in H as [H|H]; apply N.eqb_eq, tolower_inv in H;
    apply orb_true_iff; [left|right]; apply N.eqb_eq; lia.
Qed.

Lemma second_mark_char_inv x :
  char_in dms_flags [quotation; double_prime] x = true -> is_second_mark x = true.
Proof.
  unfold char_in. cbn [ignorecase dms_flags existsb].
  change (tolower quotation) with 34. change (tolower double_prime) with 8243.
  change (ignorecase_fixes 34) with (@nil N).
  change (ignorecase_fixes 8243) with (@nil N).
  cbn [existsb]. rewrite !orb_false_r. intros H.
  unfold is_second_mark, quotation, double_prime.
  apply orb_true_iff in H as [H|H]; apply N.eqb_eq, tolower_inv in H;
    apply orb_true_iff; [left|right]; apply N.eqb_eq; lia.
Qed.

Lemma digits_intro w : w <> [] -> forallb isdecimal w = true -> digits w = true.
Proof. intros N F. unfold digits. rewrite F. destruct w; [congruence|reflexivity]. Qed.

Lemma nonempty_intro (w : pystr) : w <> [] -> nonempty w = true.
Proof. destruct w; [congruence|reflexivity]. Qed.

(** What the head of the pattern has consumed when it hands over. *)
Lemma head_inv (k : cont) x res :
  run dms_flags dms_head k (at_ 0 x []) = Some res ->
  exists w0 dD w1 dw w2 dM w3 m1 w4 tl,
    x = w0 ++ dD ++ w1 ++ dw ++ w2 ++ dM ++ w3 ++ m1 :: w4 ++ tl
    /\ spaces w0 = true /\ digits dD = true /\ spaces w1 = true
    /\ is_deg dw = true /\ nonempty w2 = true /\ spaces w2 = true
    /\ digits dM = true /\ spaces w3 = true /\ is_minute_mark m1 = true
    /\ nonempty w4 = true /\ spaces w4 = true
    /\ exists n, k (at_ n tl [(2%nat, dM); (1%nat, dD)]) = Some res.
Proof.
  unfold dms_head. cbn [sequence]. intros H.
  rewrite run_seq, run_bol, run_seq in H.
  apply star_space_inv in H as (w0 & r1 & -> & H0 & H).
  rewrite run_seq, run_group in H.
  apply plus_digit_inv in H as (dD & r2 & -> & NdD & FdD & H).
  cbv beta in H. erewrite close_group_at in H by reflexivity.
  rewrite run_seq in H. apply star_space_inv in H as (w1 & r3 & -> & H1 & H).
  rewrite run_seq in H. apply lit_inv in H as (a & r4 & -> & Ha & H).
  rewrite run_seq in H. apply lit_inv in H as (b & r5 & -> & Hb & H).
  rewrite run_seq in H. apply lit_inv in H as (c & r6 & -> & Hc & H).
  rewrite run_seq in H. apply plus_space_inv in H as (w2 & r7 & -> & N2 & H2 & H).
  rewrite run_seq, run_group in H.
  apply plus_digit_inv in H as (dM & r8 & -> & NdM & FdM & H).
  cbv beta in H. erewrite close_group_at in H by reflexivity.
  rewrite run_seq in H. apply star_space_inv in H as (w3 & r9 & -> & H3 & H).
  rewrite run_seq in H. apply chars_inv in H as (m1 & r10 & -> & Hm1 & H).
  apply plus_space_inv in H as (w4 & tl & -> & N4 & H4 & H).
  exists w0, dD, w1, [a; b; c], w2, dM, w3, m1, w4, tl.
  repeat split; auto using digits_intro, nonempty_intro, deg_chars_inv,
    minute_mark_char_inv.
  eexists. exact H.
Qed.

(** What the third group has taken. *)
Lemma seconds_inv (k : cont) n s g res :
  run dms_flags dms_seconds k (at_ n s g) = Some res ->
  exists si sf tl,
    let sec := si ++ match sf with None => [] | Some f => full_stop :: f end in
    s = sec ++ tl /\ digits si = true
    /\ match sf with None => true | Some f => digits f end = true
    /\ exists n', k (at_ n' tl ((3%nat, sec) :: g)) = Some res.
Proof.
  unfold dms_seconds. rewrite run_group, run_seq. intros H.
  apply plus_digit_inv in H as (si & r1 & -> & Nsi & Fsi & H).
  apply opt_inv in H as [H|H].
  - rewrite run_seq in H. apply lit_inv in H as (x & r2 & -> & Hx & H).
    apply stop_char_inv in Hx. subst x.
    apply plus_digit_inv in H as (f & tl & -> & Nf & Ff & H).
    cbv beta in H.
    rewrite (close_group_at 3 _ _ _ (si ++ full_stop :: f)) in H;
      [|now rewrite <- app_assoc|rewrite length_app; cbn [length]; lia].
    exists si, (Some f), tl. cbv zeta. rewrite <- app_assoc. cbn [app].
    repeat split; auto using digits_intro. eexists. exact H.
  - erewrite close_group_at in H by reflexivity.
    exists si, None, r1. cbv zeta. rewrite app_nil_r.
    repeat split; auto using digits_intro. eexists. exact H.
Qed.

(** What the tail of the pattern has consumed at the end of the match. *)
Lemma tail_inv n s g res :
  run dms_flags dms_tail Some (at_ n s g) = Some res ->
  exists w5 m2 w6 h w7,
    s = w5 ++ m2 :: w6 ++ h :: w7
    /\ spaces w5 = true /\ is_second_mark m2 = true
    /\ nonempty w6 = true /\ spaces w6 = true
    /\ matches_hemisphere h = true /\ spaces w7 = true
    /\ groups res = (4%nat, [h]) :: g.
Proof.
  unfold dms_tail. cbn [sequence]. intros H.
  rewrite run_seq in H. apply star_space_inv in H as (w5 & r1 & -> & H5 & H).
  rewrite run_seq in H. apply chars_inv in H as (m2 & r2 & -> & Hm2 & H).
  rewrite run_seq in H. apply plus_space_inv in H as (w6 & r3 & -> & N6 & H6 & H).
  rewrite run_seq, run_group in H. apply chars_inv in H as (h & r4 & -> & Hh & H).
  rewrite (close_group_at 4 _ _ _ [h]) in H; [|reflexivity|cbn [length]; lia].
  rewrite run_seq in H. apply star_space_inv in H as (w7 & r5 & -> & H7 & H).
  apply eol_inv in H as [E H]. inversion H; subst res.
  exists w5, m2, w6, h, (w7 ++ r5).
  repeat split; auto using nonempty_intro, second_mark_char_inv.
  unfold spaces. rewrite forallb_app, H7. destruct E as [-> | ->]; reflexivity.
Qed.

(** Every text the pattern matches has the shape, and the groups of the
    match are its four tokens. *)
Lemma dms_pattern_inv x m :
  re_match dms_flags dms_pattern x = Some m ->
  exists t, shape t = true /\ x = render t /\ groups m = captured t.
Proof.
  unfold re_match. rewrite dms_pattern_parts.
  change {| pos := 0; rest := x; groups := [] |} with (at_ 0 x []).
  intros H.
  apply head_inv in H
    as (w0 & dD & w1 & dw & w2 & dM & w3 & m1 & w4 & tl & -> & H0 & HdD & H1
        & Hdw & N2 & H2 & HdM & H3 & Hm1 & N4 & H4 & n & H).
  apply seconds_inv in H as (si & sf & tl' & H). cbv zeta in H.
  destruct H as (-> & Hsi & Hsf & n' & H).
  apply tail_inv in H
    as (w5 & m2 & w6 & h & w7 & -> & H5 & Hm2 & N6 & H6 & Hh & H7 & Hg).
  exists {| sp0 := w0; degrees_text := dD; sp1 := w1; deg_word := dw; sp2 := w2;
            minutes_text := dM; sp3 := w3; minute_mark := m1; sp4 := w4;
            seconds_int := si; seconds_frac := sf; sp5 := w5;
            second_mark := m2; sp6 := w6; hemisphere := h; sp7 := w7 |}.
  split; [|split].
  - unfold shape, tokens_match, loosely_spaced, separated.
    cbn [sp0 degrees_text sp1 deg_word sp2 minutes_text sp3 minute_mark sp4
         seconds_int seconds_frac sp5 second_mark sp6 hemisphere sp7].
    rewrite !andb_true_iff. repeat split; assumption.
  - unfold render, core, seconds_text.
    cbn [sp0 degrees_text sp1 deg_word sp2 minutes_text sp3 minute_mark sp4
         seconds_int seconds_frac sp5 second_mark sp6 hemisphere sp7].
    repeat (progress (rewrite <- ?app_assoc; cbn [app])). reflexivity.
  - exact Hg.
Qed.

End DmsFacts.

(** ** parse_dms on well-formed texts *)

Module ParseFacts.

Import ClassFacts MatchFacts Dms DmsFacts.

Local Open Scope N_scope.

Lemma lstrip_app a s :
  forallb isspace a = true -> stops isspace s -> lstrip (a ++ s) = s.
Proof.
  induction a as [|x a IH]; cbn [app forallb lstrip]; intros Ha Hs.
  - destruct s as [|y s]; [reflexivity|]. cbn in *. now rewrite Hs.
  - apply andb_true_iff in Ha as [Hx Ha]. rewrite Hx. now apply IH.
Qed.

Lemma forallb_rev (p : N -> bool) s : forallb p (rev s) = forallb p s.
Proof.
  induction s as [|x s IH]; [reflexivity|].
  cbn [rev forallb]. rewrite forallb_app, IH. cbn. rewrite andb_true_r.
  apply andb_comm.
Qed.

Lemma strip_app a s b :
  forallb isspace a = true -> forallb isspace b = true ->
  s <> [] -> stops isspace s -> stops isspace (rev s) ->
  strip (a ++ s ++ b) = s.
Proof.
  intros Ha Hb Hne Hs Hr. unfold strip.
  rewrite lstrip_app; [|exact Ha|].
  - rewrite rev_app_distr, lstrip_app; [apply rev_involutive| |exact Hr].
    now rewrite forallb_rev.
  - destruct s; [congruence|exact Hs].
Qed.

Lemma strip_render t : well_formed t = true -> strip (render t) = core t.
Proof.
  intros H. unfold render.
  unfold well_formed, tokens_ok, loosely_spaced, separated, spaces in H.
  rewrite !andb_true_iff in H.
  destruct H as [[HT HS] HN].
  destruct HT as [[[[[[[HdD Hdw] HdM] Hm1] Hsi] Hsf] Hm2] Hh].
  destruct HS as [[[[[[[H0 H1] H2] H3] H4] H5] H6] H7].
  apply is_hemisphere_matches, matches_hemisphere_facts in Hh as [Sh _].
  pose proof (digits_inv _ HdD) as [NdD _].
  apply strip_app; [exact H0|exact H7| | |].
  - unfold core. destruct (degrees_text t); [congruence|discriminate].
  - unfold core. now apply stops_space_digits.
  - unfold core.
    repeat first [rewrite rev_app_distr | progress cbn [rev app]].
    exact Sh.
Qed.

Lemma digits_acc_total s :
  forallb isdecimal s = true -> forall acc, exists n, digits_acc acc s = Some n.
Proof.
  induction s as [|c s IH]; cbn [forallb digits_acc]; intros H acc.
  - now exists acc.
  - apply andb_true_iff in H as [Hc Hs]. unfold isdecimal in Hc.
    destruct (decimal_value c) as [d|]; [|discriminate]. now apply IH.
Qed.

Lemma digits_value_number s :
  digits s = true -> digits_value s = Some (Z.to_N (number s)).
Proof.
  intros H. apply digits_inv in H as [Hne Hs]. unfold number.
  destruct s as [|c s]; [congruence|].
  destruct (digits_acc_total _ Hs 0) as [n Hn].
  unfold digits_value. rewrite Hn. now rewrite N2Z.id.
Qed.

Lemma number_nonneg s : (0 <= number s)%Z.
Proof. unfold number. destruct (digits_value s); lia. Qed.

Lemma py_int_digits s :
  digits s = true -> (length s <= int_max_str_digits)%nat ->
  py_int (Some s) = Ok (number s).
Proof.
  intros H Hlen. unfold py_int. rewrite (digits_value_number _ H).
  apply Nat.leb_le in Hlen. rewrite Hlen.
  rewrite Z2N.id by apply number_nonneg. reflexivity.
Qed.

Lemma decimal_not_stop c : isdecimal c = true -> (c =? full_stop) = false.
Proof.
  intros H. destruct (N.eqb_spec c full_stop) as [->|]; [|reflexivity].
  discriminate.
Qed.

Lemma split_stop_digits s tl :
  forallb isdecimal s = true ->
  split_stop (s ++ tl) = (s ++ fst (split_stop tl), snd (split_stop tl)).
Proof.
  induction s as [|c s IH]; cbn [app forallb split_stop]; intros H.
  - now destruct (split_stop tl).
  - apply andb_true_iff in H as [Hc Hs]. rewrite (decimal_not_stop _ Hc).
    rewrite (IH Hs). reflexivity.
Qed.

Lemma digits_app s f : digits s = true -> digits f = true -> digits (s ++ f) = true.
Proof.
  intros Hs Hf. apply digits_inv in Hs as [Ns Fs]. apply digits_inv in Hf as [Nf Ff].
  unfold digits. rewrite forallb_app, Fs, Ff.
  destruct s; [congruence|reflexivity].
Qed.

Lemma py_float_seconds t :
  tokens_ok t = true -> py_float (Some (seconds_text t)) = Ok (seconds_of t).
Proof.
  unfold tokens_ok. intros H. rewrite !andb_true_iff in H.
  destruct H as [[[[[[[HdD Hdw] HdM] Hm1] Hsi] Hsf] Hm2] Hh].
  pose proof (digits_inv _ Hsi) as [Nsi Fsi].
  unfold py_float, seconds_text, seconds_of.
  rewrite (split_stop_digits _ _ Fsi).
  destruct (seconds_frac t) as [f|].
  - cbn [split_stop fst snd]. rewrite N.eqb_refl. cbn [fst snd].
    rewrite app_nil_r.
    rewrite (digits_value_number _ Hsi), (digits_value_number _ Hsf).
    rewrite (digits_value_number _ (digits_app _ _ Hsi Hsf)). reflexivity.
  - cbn [split_stop fst snd]. rewrite app_nil_r.
    rewrite (digits_value_number _ Hsi). reflexivity.
Qed.

Lemma south_or_west_sign h :
  is_hemisphere h = true ->
  south_or_west (@Some pystr [h]) = Ok (negb (sign h =? 1)%Z).
Proof.
  intros H. apply is_hemisphere_inv in H. cbn [In] in H.
  repeat (destruct H as [<-|H]; [reflexivity|]). contradiction.
Qed.

Lemma sign_cases h :
  is_hemisphere h = true -> sign h = 1%Z \/ sign h = (-1)%Z.
Proof.
  intros H. apply is_hemisphere_inv in H. cbn [In] in H.
  repeat (destruct H as [<-|H]; [auto|]). contradiction.
Qed.

(** What [parse_dms] does with a well-formed text: the conversions and
    the arithmetic on the four tokens. *)
Lemma parse_dms_render t :
  well_formed t = true ->
  parse_dms (PyStr (render t)) = decimal_of_groups (captured t).
Proof.
  intros H. unfold parse_dms. cbn [isna isinstance_str negb orb].
  rewrite (strip_render _ H).
  destruct (match_core _ (well_formed_shape _ H)) as [m [Hm Hg]].
  rewrite Hm, Hg. reflexivity.
Qed.

Lemma decimal_of_groups_value t :
  tokens_ok t = true -> within_int_limit t = true ->
  decimal_of_groups (captured t)
  = rbind (signed_decimal (sign (hemisphere t)) (degrees_of t) (minutes_of t)
             (seconds_of t))
      (fun v => Ok (PyFloat v)).
Proof.
  intros H L. pose proof H as H'. unfold tokens_ok in H'.
  rewrite !andb_true_iff in H'.
  destruct H' as [[[[[[[HdD Hdw] HdM] Hm1] Hsi] Hsf] Hm2] Hh].
  unfold within_int_limit in L. apply andb_true_iff in L as [L1 L2].
  apply Nat.leb_le in L1, L2.
  unfold decimal_of_groups, captured. cbv zeta. cbn [group Nat.eqb].
  rewrite (py_int_digits _ HdD L1), (py_int_digits _ HdM L2), (py_float_seconds _ H).
  cbn [rbind]. unfold signed_decimal, degrees_of, minutes_of.
  destruct (int_truediv (number (minutes_text t)) 60) as [m60|e]; cbn [rbind]; [|reflexivity].
  destruct (int_add_float (number (degrees_text t)) m60) as [dm|e]; cbn [rbind]; [|reflexivity].
  destruct (float_truediv_int (seconds_of t) 3600) as [s3600|e]; cbn [rbind]; [|reflexivity].
  rewrite (south_or_west_sign _ Hh).
  destruct (sign_cases _ Hh) as [-> | ->]; cbn [rbind Z.eqb negb Pos.eqb];
    reflexivity.
Qed.

(** A string the pattern does not match, once stripped. *)
Lemma parse_dms_unmatched s :
  re_match dms_flags dms_pattern (strip s) = None ->
  parse_dms (PyStr s) = Raise (ValueError (lit "Invalid DMS format: " ++ s)).
Proof.
  intros H. unfold parse_dms. cbn [isna isinstance_str negb orb]. now rewrite H.
Qed.

(** A value that is no string. *)
Lemma parse_dms_not_str v : isinstance_str v = false -> parse_dms v = Ok PyNone.
Proof.
  intros H. unfold parse_dms. rewrite H. cbn [negb]. now rewrite orb_true_r.
Qed.

Lemma tokens_match_inv t :
  tokens_match t = true ->
  digits (degrees_text t) = true /\ digits (minutes_text t) = true
  /\ digits (seconds_int t) = true
  /\ match seconds_frac t with None => true | Some f => digits f end = true
  /\ matches_hemisphere (hemisphere t) = true.
Proof.
  unfold tokens_match. intros H. rewrite !andb_true_iff in H. tauto.
Qed.

(** The letters the pattern lets through, and the test of the sign. *)
Lemma south_or_west_southerly h :
  matches_hemisphere h = true ->
  south_or_west (@Some pystr [h]) = Ok (Outcomes.southerly h).
Proof.
  intros H. apply matches_hemisphere_inv in H. cbn [In] in H.
  repeat (destruct H as [<-|H]; [reflexivity|]). contradiction.
Qed.

End ParseFacts.

(** ** Signs of the floats of parse_dms *)

Module FloatFacts.

Local Open Scope Z_scope.

Lemma iter_pos_invariant {A : Type} (P : A -> Prop) (f : A -> A) :
  (forall x, P x -> P (f x)) -> forall p x, P x -> P (iter_pos f p x).
Proof.
  intros Hf. induction p as [p IH|p IH|]; intros x Hx; cbn [iter_pos]; auto.
Qed.

Lemma shr_1_nonneg mrs : 0 <= shr_m mrs -> 0 <= shr_m (shr_1 mrs).
Proof.
  destruct mrs as [m r s]. cbn [shr_m]. intros H.
  destruct m as [|[p|p|]|p]; cbn; lia.
Qed.

Lemma shr_fexp_nonneg m e l :
  0 <= m -> 0 <= shr_m (fst (shr_fexp prec emax m e l)).
Proof.
  intros H. unfold shr_fexp, shr.
  assert (H0 : 0 <= shr_m (shr_record_of_loc m l))
    by (destruct l as [|[| |]]; exact H).
  destruct (fexp prec emax (Zdigits2 m + e) - e) as [|p|p]; cbn [fst]; auto.
  apply iter_pos_invariant; [exact shr_1_nonneg|exact H0].
Qed.

Lemma round_nearest_even_nonneg m l : 0 <= m -> 0 <= round_nearest_even m l.
Proof.
  intros H. unfold round_nearest_even.
  destruct l as [|[| |]]; try lia. destruct (Z.even m); lia.
Qed.

(** Rounding a non-negative mantissa keeps the sign and gives no NaN. *)
Lemma binary_round_aux_signed s m e l :
  0 <= m -> signed_as s (binary_round_aux prec emax s m e l).
Proof.
  intros H. unfold binary_round_aux.
  pose proof (shr_fexp_nonneg m e l H) as H1.
  destruct (shr_fexp prec emax m e l) as [mrs' e']. cbn [fst] in H1.
  pose proof (shr_fexp_nonneg _ e' loc_Exact
                (round_nearest_even_nonneg _ (loc_of_shr_record mrs') H1)) as H2.
  destruct (shr_fexp prec emax _ e' loc_Exact) as [mrs'' e'']. cbn [fst] in H2.
  destruct (shr_m mrs'') as [|p|p]; [reflexivity| |lia].
  destruct (e'' <=? emax - prec); reflexivity.
Qed.

Lemma binary_round_signed s m e : signed_as s (binary_round prec emax s m e).
Proof.
  unfold binary_round.
  destruct (shl_align m e _) as [mz ez]. now apply binary_round_aux_signed.
Qed.

Lemma float_of_int_signed z f :
  0 <= z -> float_of_int z = Ok f -> signed_as false f.
Proof.
  unfold float_of_int, binary_normalize. intros Hz H.
  destruct z as [|p|p]; [|  |lia].
  - now inversion H.
  - pose proof (binary_round_signed false p 0) as B.
    destruct (binary_round prec emax false p 0); inversion H; subst; exact B.
Qed.

Lemma SFdiv_signed x y :
  signed_as false x ->
  match y with S754_finite false _ _ => True | _ => False end ->
  signed_as false (SFdiv prec emax x y).
Proof.
  intros Hx Hy. destruct y as [| | |[|] my ey]; try contradiction.
  destruct x as [sx|sx| |sx mx ex]; cbn in Hx; try contradiction; subst sx;
    cbn [SFdiv xorb]; try reflexivity.
  destruct (SFdiv_core_binary prec emax (Z.pos mx) ex (Z.pos my) ey) as [[mz ez] lz] eqn:E.
  apply binary_round_aux_signed.
  unfold SFdiv_core_binary in E.
  set (m' := match _ - _ - _ with Z.pos _ => _ | _ => _ end) in E.
  assert (Hm : 0 <= m').
  { subst m'. destruct (_ - _ - _); try lia. apply Z.shiftl_nonneg. lia. }
  pose proof (Z.div_eucl_eq m' (Z.pos my) ltac:(lia)) as D.
  pose proof (Z_div_mod m' (Z.pos my) ltac:(lia)) as D2.
  destruct (Z.div_eucl m' (Z.pos my)) as [q r]. inversion E; subst. nia.
Qed.

Lemma exact_signed z : 0 <= z -> signed_as false (exact z).
Proof. destruct z; cbn; intros; try reflexivity; lia. Qed.

Lemma int_truediv_signed a b f :
  0 <= a -> 0 < b -> int_truediv a b = Ok f -> signed_as false f.
Proof.
  unfold int_truediv. intros Ha Hb H.
  destruct (Z.eqb_spec b 0); [lia|].
  assert (S : signed_as false (SFdiv prec emax (exact a) (exact b))).
  { apply SFdiv_signed; [now apply exact_signed|]. destruct b; try lia. exact I. }
  destruct (SFdiv prec emax (exact a) (exact b)); inversion H; subst; exact S.
Qed.

Lemma decimal_to_float_signed n k : signed_as false (decimal_to_float n k).
Proof.
  unfold decimal_to_float. apply SFdiv_signed; [apply exact_signed; lia|].
  assert (0 < 10 ^ Z.of_nat k) by (apply Z.pow_pos_nonneg; lia).
  destruct (10 ^ Z.of_nat k); try lia. exact I.
Qed.

Lemma float_add_signed x y :
  signed_as false x -> signed_as false y -> signed_as false (float_add x y).
Proof.
  unfold float_add. intros Hx Hy.
  destruct x as [sx|sx| |sx mx ex]; cbn in Hx; try contradiction; subst sx;
  destruct y as [sy|sy| |sy my ey]; cbn in Hy; try contradiction; subst sy;
    cbn [SFadd]; try reflexivity.
  cbn [cond_Zopp].
  match goal with |- signed_as _ (binary_normalize _ _ (Z.pos ?a + Z.pos ?b) _ _) =>
    change (Z.pos a + Z.pos b) with (Z.pos (a + b)) end.
  cbn [binary_normalize]. apply binary_round_signed.
Qed.

Lemma float_mul_signed x s m e :
  signed_as false x -> signed_as s (float_mul x (S754_finite s m e)).
Proof.
  unfold float_mul. intros Hx.
  destruct x as [sx|sx| |sx mx ex]; cbn in Hx; try contradiction; subst sx;
    cbn [SFmul xorb]; try reflexivity.
  apply binary_round_aux_signed. lia.
Qed.

End FloatFacts.

(** ** The claims on parse_dms *)

Section ParseDms.

Import Dms DmsFacts ParseFacts Examples.

Lemma float_truediv_int_3600 x :
  float_truediv_int x 3600
  = Ok (SFdiv prec emax x (S754_finite false 7916483719987200 (-41))).
Proof. reflexivity. Qed.

Lemma float_mul_int_minus_one x :
  float_mul_int x (-1)
  = Ok (float_mul x (S754_finite true 4503599627370496 (-52))).
Proof. reflexivity. Qed.

(** C1, as stated, fails: the text of 10^309 degrees is well formed, and
    [parse_dms] raises OverflowError on it instead of returning a value. *)
Lemma parse_dms_huge_degrees :
  well_formed huge_degrees_text = true
  /\ parse_dms (PyStr (render huge_degrees_text))
     = Raise (OverflowError (lit "int too large to convert to float")).
Proof. split; vm_compute; reflexivity. Qed.

(** C1, amended: for every well-formed DMS text whose degrees and minutes
    are in the range of the conversions (at most 4300 digits each for
    [int], no overflow when D becomes a float and when M is divided by
    60), [parse_dms] returns sign(H) * (D + M/60 + S/3600), computed in
    the arithmetic of Python; the minutes and the seconds are not
    range-checked. *)
Theorem parse_dms_value t :
  well_formed t = true -> in_range t = true ->
  exists v,
    signed_decimal (sign (hemisphere t)) (degrees_of t) (minutes_of t)
      (seconds_of t) = Ok v
    /\ parse_dms (PyStr (render t)) = Ok (PyFloat v).
Proof.
  intros W LR. apply andb_true_iff in LR as [L R].
  assert (T : tokens_ok t = true).
  { unfold well_formed in W. rewrite !andb_true_iff in W. tauto. }
  rewrite (parse_dms_render _ W), (decimal_of_groups_value _ T L).
  assert (E : exists v, signed_decimal (sign (hemisphere t)) (degrees_of t)
                          (minutes_of t) (seconds_of t) = Ok v).
  { unfold within_float_range in R. unfold signed_decimal, int_add_float.
    destruct (float_of_int (degrees_of t)) as [d|]; [|discriminate].
    destruct (int_truediv (minutes_of t) 60) as [m|]; [|discriminate].
    cbn [rbind]. rewrite float_truediv_int_3600. cbn [rbind].
    destruct (sign (hemisphere t) =? 1)%Z eqn:S1; [eauto|].
    assert (Hh : is_hemisphere (hemisphere t) = true).
    { unfold tokens_ok in T. rewrite !andb_true_iff in T. tauto. }
    destruct (sign_cases _ Hh) as [E|E]; rewrite E in *; [discriminate|].
    rewrite float_mul_int_minus_one. eauto. }
  destruct E as [v Hv]. exists v. rewrite Hv. split; reflexivity.
Qed.

Lemma parse_dms_value_witness :
  exists v,
    signed_decimal 1 37 36 (decimal_to_float 5554 2) = Ok v
    /\ parse_dms (PyStr (lit "37 deg 36' 55.54" ++ [quotation] ++ lit " N"))
       = Ok (PyFloat v).
Proof.
  apply (parse_dms_value example_text); vm_compute; reflexivity.
Defined.

(** Minutes beyond 59 are accepted: 10 deg 75' 30 N is 10 + 1.25 + 30/3600. *)
Example parse_dms_75_minutes :
  parse_dms (PyStr minutes_75)
  = Ok (PyFloat (S754_finite false 6337878225601604 (-49))).
Proof. vm_compute. reflexivity. Qed.

(** C2: a string that, once stripped, does not match the pattern makes
    [parse_dms] raise ValueError with the message carrying the string as
    it was given; it returns no value, default or other. *)
Theorem parse_dms_rejects s :
  re_match dms_flags dms_pattern (strip s) = None ->
  parse_dms (PyStr s) = Raise (ValueError (lit "Invalid DMS format: " ++ s))
  /\ forall v, parse_dms (PyStr s) <> Ok v.
Proof.
  intros H. rewrite (parse_dms_unmatched _ H). split; [reflexivity|discriminate].
Qed.

Lemma parse_dms_rejects_witness :
  parse_dms (PyStr (lit "37 deg 36' N"))
  = Raise (ValueError (lit "Invalid DMS format: 37 deg 36' N"))
  /\ forall v, parse_dms (PyStr (lit "37 deg 36' N")) <> Ok v.
Proof.
  apply (parse_dms_rejects (lit "37 deg 36' N")). vm_compute. reflexivity.
Defined.

(** The same with the pattern spelled out: a string whose stripped form is
    no text of the shape (degrees, deg, minutes and mark, seconds and
    mark, hemisphere letter) is rejected. *)
Corollary parse_dms_rejects_outside_shape s :
  (forall t, shape t = true -> strip s <> render t) ->
  parse_dms (PyStr s) = Raise (ValueError (lit "Invalid DMS format: " ++ s)).
Proof.
  intros H. apply parse_dms_unmatched.
  destruct (re_match dms_flags dms_pattern (strip s)) as [m|] eqn:E; [|reflexivity].
  apply dms_pattern_inv in E as (t & S & R & _). now apply H in S.
Qed.

(** C7, as stated, fails: with no white space between the minute mark and
    the seconds the tokens are all there and [parse_dms] raises. *)
Lemma parse_dms_unseparated :
  tokens_ok unseparated_text = true /\ loosely_spaced unseparated_text = true
  /\ render unseparated_text = lit "37 deg 36'55.54" ++ [quotation] ++ lit " N"
  /\ parse_dms (PyStr (render unseparated_text))
     = Raise (ValueError (lit "Invalid DMS format: 37 deg 36'55.54"
                          ++ [quotation] ++ lit " N")).
Proof. repeat split; vm_compute; reflexivity. Qed.

(** C7, amended: for the four tokens of a well-formed text, with any
    amount of white space around them (none at all before [deg] and before
    each mark, if one likes) but at least one white-space character after
    [deg], after the minute mark and after the second mark, the pattern
    matches, its groups are the tokens, and the result of [parse_dms]
    depends on the tokens only. *)
Theorem whitespace_flexible t :
  tokens_ok t = true -> loosely_spaced t = true -> separated t = true ->
  (exists m, re_match dms_flags dms_pattern (strip (render t)) = Some m
             /\ groups m = captured t)
  /\ parse_dms (PyStr (render t)) = decimal_of_groups (captured t).
Proof.
  intros T S N.
  assert (W : well_formed t = true).
  { unfold well_formed. now rewrite T, S, N. }
  split; [|now apply parse_dms_render].
  rewrite (strip_render _ W). now apply match_core, well_formed_shape.
Qed.

Lemma whitespace_flexible_witness :
  (exists m, re_match dms_flags dms_pattern (strip (render example_text)) = Some m
             /\ groups m = captured example_text)
  /\ parse_dms (PyStr (render example_text))
     = decimal_of_groups (captured example_text).
Proof. apply (whitespace_flexible example_text); reflexivity. Defined.

Lemma decimal_of_groups_not_none gs : decimal_of_groups gs <> Ok PyNone.
Proof.
  unfold decimal_of_groups. cbv zeta.
  destruct (py_int (group 1 gs)); cbn [rbind]; [|discriminate].
  destruct (py_int (group 2 gs)); cbn [rbind]; [|discriminate].
  destruct (py_float (group 3 gs)); cbn [rbind]; [|discriminate].
  destruct (int_truediv _ _); cbn [rbind]; [|discriminate].
  destruct (int_add_float _ _); cbn [rbind]; [|discriminate].
  destruct (float_truediv_int _ _); cbn [rbind]; [|discriminate].
  destruct (south_or_west _) as [[|]|]; cbn [rbind]; try discriminate;
    destruct (float_mul_int _ _); cbn [rbind]; discriminate.
Qed.

(** C8, as stated, fails: the integer 5 is no null sentinel, and
    [parse_dms] returns [None] for it as well. *)
Lemma parse_dms_none_for_int :
  parse_dms (PyInt 5) = Ok PyNone /\ isna (PyInt 5) = false.
Proof. split; reflexivity. Qed.

(** C8, amended: [parse_dms] returns [None], without raising, exactly when
    its input is the null sentinel or is no string at all; on a string it
    never returns [None]. *)
Theorem parse_dms_none v :
  parse_dms v = Ok PyNone <-> isna v = true \/ isinstance_str v = false.
Proof.
  split.
  - intros H. destruct v as [|b|z|f|s]; cbn; auto.
    exfalso. unfold parse_dms in H. cbn [isna isinstance_str negb orb] in H.
    destruct (re_match dms_flags dms_pattern (strip s)) as [m|]; [|discriminate].
    now apply decimal_of_groups_not_none in H.
  - intros [H|H]; [unfold parse_dms; now rewrite H|].
    now apply parse_dms_not_str.
Qed.

(** C9: for two well-formed texts with the same degrees, minutes and
    seconds, whichever marks (ASCII or Unicode) they use: when their
    hemisphere letters differ by case at most, they parse to the same
    result; and when the letter of the first is an S or a W in either
    case and the letter of the second is not, the result of the first is
    the result of the second with its value multiplied by -1. *)
Theorem case_and_marks_insensitive t t' :
  well_formed t = true -> well_formed t' = true ->
  degrees_text t = degrees_text t' -> minutes_text t = minutes_text t' ->
  seconds_text t = seconds_text t' ->
  (toupper (hemisphere t) = toupper (hemisphere t') ->
   parse_dms (PyStr (render t)) = parse_dms (PyStr (render t')))
  /\ (Outcomes.southerly (hemisphere t) = true ->
      Outcomes.southerly (hemisphere t') = false ->
      parse_dms (PyStr (render t))
      = Outcomes.negated (parse_dms (PyStr (render t')))).
Proof.
  intros W W' HD HM HS.
  rewrite (parse_dms_render _ W), (parse_dms_render _ W').
  unfold decimal_of_groups, captured. cbv zeta. cbn [group Nat.eqb].
  rewrite HD, HM, HS. split.
  - intros HH. unfold south_or_west, upper. cbn [map]. now rewrite HH.
  - intros Hs Hn.
    assert (M : forall u, well_formed u = true ->
                matches_hemisphere (hemisphere u) = true).
    { intros u Wu. unfold well_formed in Wu. rewrite !andb_true_iff in Wu.
      destruct Wu as [[T _] _].
      now apply tokens_ok_match, tokens_match_inv in T. }
    rewrite (south_or_west_southerly _ (M _ W)), Hs.
    rewrite (south_or_west_southerly _ (M _ W')), Hn.
    destruct (py_int (Some (degrees_text t'))); cbn [rbind]; [|reflexivity].
    destruct (py_int (Some (minutes_text t'))); cbn [rbind]; [|reflexivity].
    destruct (py_float (Some (seconds_text t'))); cbn [rbind]; [|reflexivity].
    destruct (int_truediv _ 60); cbn [rbind]; [|reflexivity].
    destruct (int_add_float _ _); cbn [rbind]; [|reflexivity].
    rewrite float_truediv_int_3600. cbn [rbind].
    rewrite float_mul_int_minus_one. reflexivity.
Qed.

Lemma case_and_marks_insensitive_witness :
  parse_dms (PyStr (lit "37 deg 36' 55.54" ++ [quotation] ++ lit " N"))
  = parse_dms (PyStr (lit "37 deg 36' 55.54" ++ [double_prime] ++ lit " N"))
  /\ parse_dms (PyStr (lit "37 deg 36' 55.54" ++ [quotation] ++ lit " s"))
     = Outcomes.negated
         (parse_dms (PyStr (lit "37 deg 36' 55.54" ++ [double_prime] ++ lit " N"))).
Proof.
  split.
  - apply (case_and_marks_insensitive example_text
             (with_marks example_text apostrophe double_prime 78%N));
      reflexivity.
  - apply (case_and_marks_insensitive
             (with_marks example_text apostrophe quotation 115%N)
             (with_marks example_text apostrophe double_prime 78%N));
      reflexivity.
Defined.

(** The lower-case letter [s] is read as [S]: the value is negated. *)
Example parse_dms_lower_case_south :
  parse_dms (PyStr (lit "37 deg 36' 55.54" ++ [quotation] ++ lit " s"))
  = parse_dms (PyStr (lit "37 deg 36' 55.54" ++ [quotation] ++ lit " S"))
  /\ parse_dms (PyStr (lit "37 deg 36' 55.54" ++ [quotation] ++ lit " s"))
     = Ok (PyFloat (S754_finite true 5293900828855682 (-47))).
Proof. split; vm_compute; reflexivity. Qed.

End ParseDms.

(** ** parse_dms returns floats that are no NaN *)

Module ResultFacts.

Import Dms DmsFacts ParseFacts FloatFacts Rows.

Lemma py_int_nonneg g z : py_int g = Ok z -> (0 <= z)%Z.
Proof.
  unfold py_int. destruct g as [s|]; [|discriminate].
  destruct (digits_value s); [|discriminate].
  destruct (_ <=? _)%nat; [|discriminate]. intros H; inversion H. lia.
Qed.

Lemma py_float_signed g f : py_float g = Ok f -> signed_as false f.
Proof.
  unfold py_float. destruct g as [s|]; [|discriminate].
  destruct (split_stop s) as [ip [fp|]].
  - destruct (digits_value ip); [|discriminate].
    destruct (digits_value fp); [|discriminate].
    destruct (digits_value (ip ++ fp)); [|discriminate].
    intros H; inversion H. apply decimal_to_float_signed.
  - destruct (digits_value ip); [|discriminate].
    intros H; inversion H. apply decimal_to_float_signed.
Qed.

Lemma signed_not_nan s x : signed_as s x -> x <> S754_nan.
Proof. intros H ->. exact H. Qed.

(** What [parse_dms] returns after a match is a float, and no NaN. *)
Lemma decimal_of_groups_float gs v :
  decimal_of_groups gs = Ok v -> exists a, v = PyFloat a /\ a <> S754_nan.
Proof.
  unfold decimal_of_groups. cbv zeta.
  destruct (py_int (group 1 gs)) as [D|] eqn:ED; cbn [rbind]; [|discriminate].
  destruct (py_int (group 2 gs)) as [M|] eqn:EM; cbn [rbind]; [|discriminate].
  destruct (py_float (group 3 gs)) as [S|] eqn:ES; cbn [rbind]; [|discriminate].
  destruct (int_truediv M 60) as [m60|] eqn:E60; cbn [rbind]; [|discriminate].
  apply py_int_nonneg in ED, EM. apply py_float_signed in ES.
  apply int_truediv_signed in E60; [|lia|lia].
  unfold int_add_float.
  destruct (float_of_int D) as [fd|] eqn:EfD; cbn [rbind]; [|discriminate].
  apply float_of_int_signed in EfD; [|lia].
  rewrite float_truediv_int_3600. cbn [rbind].
  assert (A : signed_as false
                (float_add (float_add fd m60)
                   (SFdiv prec emax S (S754_finite false 7916483719987200 (-41))))).
  { apply float_add_signed; [now apply float_add_signed|].
    now apply SFdiv_signed. }
  destruct (south_or_west _) as [[|]|]; cbn [rbind]; [| |discriminate].
  - rewrite float_mul_int_minus_one. cbn [rbind]. intros H; inversion H.
    eexists; split; [reflexivity|].
    eapply signed_not_nan. now apply float_mul_signed.
  - intros H; inversion H. eexists; split; [reflexivity|].
    eapply signed_not_nan; exact A.
Qed.

(** A value [parse_dms] turns into a float is a non-empty string, and the
    float is no NaN. *)
Lemma parse_dms_float_inv v a :
  parse_dms v = Ok (PyFloat a) ->
  isna v = false /\ truthy v = true /\ isna (PyFloat a) = false.
Proof.
  intros H. destruct v as [|b|z|f|s]; try discriminate.
  - unfold parse_dms in H. destruct f; discriminate.
  - unfold parse_dms in H. cbn [isna isinstance_str negb orb] in H.
    destruct s as [|c s]; [discriminate|].
    destruct (re_match _ _ _) as [m|]; [|discriminate].
    apply decimal_of_groups_float in H as (a' & E & Hn). inversion E; subst a'.
    repeat split. destruct a; try reflexivity. congruence.
Qed.

(** A value [parse_dms] returns is [None] or a float that is no NaN. *)
Lemma parse_dms_returns v r :
  parse_dms v = Ok r -> r = PyNone \/ exists a, r = PyFloat a /\ isna r = false.
Proof.
  intros H. destruct v as [|b|z|f|s];
    try (unfold parse_dms in H; cbn in H; inversion H; now left).
  - unfold parse_dms in H. destruct f; cbn in H; inversion H; now left.
  - right. unfold parse_dms in H. cbn [isna isinstance_str negb orb] in H.
    destruct (re_match _ _ _) as [m|]; [|discriminate].
    apply decimal_of_groups_float in H as (a & -> & Hn). exists a. split; [reflexivity|].
    destruct a; try reflexivity. congruence.
Qed.

Lemma guard_absent r :
  present (lat_dms r) = false \/ present (lng_dms r) = false ->
  isna (lat_dms r) || isna (lng_dms r) || negb (truthy (lat_dms r))
  || negb (truthy (lng_dms r)) = true.
Proof.
  unfold present. destruct (isna (lat_dms r)), (isna (lng_dms r)),
    (truthy (lat_dms r)), (truthy (lng_dms r)); cbn; intuition congruence.
Qed.

Lemma guard_present r :
  present (lat_dms r) = true -> present (lng_dms r) = true ->
  isna (lat_dms r) || isna (lng_dms r) || negb (truthy (lat_dms r))
  || negb (truthy (lng_dms r)) = false.
Proof.
  unfold present. destruct (isna (lat_dms r)), (isna (lng_dms r)),
    (truthy (lat_dms r)), (truthy (lng_dms r)); cbn; intuition congruence.
Qed.

Lemma process_row_absent r c tr :
  present (lat_dms r) = false \/ present (lng_dms r) = false ->
  process_row r c tr = (Ok no_coordinates, tr).
Proof.
  intros H. unfold process_row, try_except.
  fold (lat_dms r). fold (lng_dms r). rewrite (guard_absent _ H). reflexivity.
Qed.

(** The run of [process_row] once the guard is passed. *)
Lemma process_row_present r c tr :
  present (lat_dms r) = true -> present (lng_dms r) = true ->
  process_row r c tr =
  match parse_dms (lat_dms r) with
  | Raise e => (Ok (error_row e), tr ++ [CallParse (lat_dms r)])
  | Ok lat =>
      match parse_dms (lng_dms r) with
      | Raise e =>
          (Ok (error_row e), (tr ++ [CallParse (lat_dms r)]) ++ [CallParse (lng_dms r)])
      | Ok lng =>
          match get_address_from_coordinates c lat lng
                  ((tr ++ [CallParse (lat_dms r)]) ++ [CallParse (lng_dms r)]) with
          | (Ok a, tr') => (Ok {| address := a; latitude := lat; longitude := lng |}, tr')
          | (Raise e, tr') => (Ok (error_row e), tr')
          end
      end
  end.
Proof.
  intros H1 H2. unfold process_row, try_except.
  fold (lat_dms r). fold (lng_dms r). rewrite (guard_present _ H1 H2).
  unfold bind, call_parse_dms, bind, emit, lift, ret.
  destruct (parse_dms (lat_dms r)) as [lat|e]; [|reflexivity].
  destruct (parse_dms (lng_dms r)) as [lng|e]; [|reflexivity].
  destruct (get_address_from_coordinates c lat lng _) as [[a|e] tr']; reflexivity.
Qed.

(** [get_address_from_coordinates] never raises. *)
Lemma get_address_total c lat lng tr :
  exists a tr', get_address_from_coordinates c lat lng tr = (Ok a, tr').
Proof.
  unfold get_address_from_coordinates.
  destruct (isna lat || isna lng); [unfold ret; eauto|].
  unfold try_except, bind, call_reverse_geocode, ret, lift.
  destruct (reverse_geocode c tr lat lng) as [[|first l]|e]; eauto.
  destruct (dict_get first _); eauto.
Qed.

End ResultFacts.

(** ** The claims on process_row and on the batch *)

Section ProcessRow.

Import Dms ParseFacts ResultFacts Rows Examples.

Local Open Scope string_scope.
Local Open Scope list_scope.

Lemma row_get_field r key d :
  row_get r key d = match field r key with Some v => v | None => d end.
Proof.
  induction r as [|[k v] r IH]; cbn; [reflexivity|].
  destruct (String.eqb k key); [reflexivity|exact IH].
Qed.

Lemma no_value_absent r key :
  no_value (field r key) -> present (row_get r key (PyStr [])) = false.
Proof.
  intros H. rewrite row_get_field. inversion H as [E|E|E|E]; reflexivity.
Qed.

(** C3: when the latitude field or the longitude field of the row is
    missing, empty or the null sentinel ([None] or NaN), [process_row]
    returns exactly the row of "No coordinates available" with both
    coordinates [None], and the trace is left as it was: neither
    [parse_dms] nor the geocoding client is called. *)
Theorem process_row_no_coordinates r c tr :
  no_value (field r "GPSLatitude") \/ no_value (field r "GPSLongitude") ->
  process_row r c tr = (Ok no_coordinates, tr).
Proof.
  intros [H|H]; apply process_row_absent; [left|right];
    now apply no_value_absent.
Qed.

Lemma process_row_no_coordinates_witness :
  process_row no_longitude_row failing [] = (Ok no_coordinates, []).
Proof.
  apply (process_row_no_coordinates no_longitude_row failing []).
  right. exact missing.
Defined.

(** The parser raises on a malformed string. *)
Lemma malformed_raises v : malformed v = true -> raises v = true.
Proof.
  destruct v as [| | | |s]; try discriminate. cbn [malformed]. intros H.
  unfold raises. rewrite parse_dms_unmatched; [reflexivity|].
  destruct (re_match _ _ _); [discriminate|reflexivity].
Qed.

(** C4, as stated, fails: the latitude is present and malformed, so that
    the parser raises on it, but the row has no longitude; the guard
    answers before the parser is called, and the address is
    "No coordinates available", not one that begins with "Error:". *)
Lemma process_row_malformed_latitude_only :
  present (lat_dms malformed_latitude_row) = true
  /\ malformed (lat_dms malformed_latitude_row) = true
  /\ raises (lat_dms malformed_latitude_row) = true
  /\ process_row malformed_latitude_row empty_handed []
     = (Ok no_coordinates, []).
Proof. repeat split; vm_compute; reflexivity. Qed.

(** C4, amended: when both fields pass the guard and the parser raises on
    the latitude or on the longitude, as it does on a string the pattern
    does not match, [process_row] returns the row whose address is
    "Error: " followed by the message of the first exception the parser
    raised, with both coordinates [None].  The latitude is parsed first:
    when it raises, the longitude is not parsed; the client is never
    called. *)
Theorem process_row_malformed r c tr :
  present (lat_dms r) = true -> present (lng_dms r) = true ->
  raises (lat_dms r) = true \/ raises (lng_dms r) = true ->
  exists e tr',
    process_row r c tr = (Ok (error_row e), tr')
    /\ ((parse_dms (lat_dms r) = Raise e
         /\ tr' = tr ++ [CallParse (lat_dms r)])
        \/ (raises (lat_dms r) = false
            /\ parse_dms (lng_dms r) = Raise e
            /\ tr' = tr ++ [CallParse (lat_dms r); CallParse (lng_dms r)])).
Proof.
  intros P1 P2 H. rewrite (process_row_present _ c tr P1 P2).
  unfold raises in H |- *.
  destruct (parse_dms (lat_dms r)) as [lat|e] eqn:E1.
  - destruct (parse_dms (lng_dms r)) as [lng|e] eqn:E2.
    + exfalso. destruct H; discriminate.
    + exists e. eexists. split; [reflexivity|]. right.
      rewrite <- app_assoc. repeat split.
  - exists e. eexists. split; [reflexivity|]. left. split; reflexivity.
Qed.

Lemma process_row_malformed_witness :
  exists e tr',
    process_row malformed_row empty_handed [] = (Ok (error_row e), tr')
    /\ ((parse_dms (lat_dms malformed_row) = Raise e
         /\ tr' = [] ++ [CallParse (lat_dms malformed_row)])
        \/ (raises (lat_dms malformed_row) = false
            /\ parse_dms (lng_dms malformed_row) = Raise e
            /\ tr' = [] ++ [CallParse (lat_dms malformed_row);
                            CallParse (lng_dms malformed_row)])).
Proof.
  apply (process_row_malformed malformed_row empty_handed []);
    [reflexivity|reflexivity|left; vm_compute; reflexivity].
Defined.

(** C5: when both fields parse to floats and the geocoding client raises
    on them, [process_row] returns the row whose address is
    "Error getting address: " followed by the message of the exception,
    and whose latitude and longitude are the two parsed floats. *)
Theorem process_row_lookup_failure r c tr a b e :
  parse_dms (lat_dms r) = Ok (PyFloat a) ->
  parse_dms (lng_dms r) = Ok (PyFloat b) ->
  reverse_geocode c (tr ++ [CallParse (lat_dms r); CallParse (lng_dms r)])
    (PyFloat a) (PyFloat b) = Raise e ->
  process_row r c tr =
  (Ok {| address := lit "Error getting address: " ++ str_exn e;
         latitude := PyFloat a; longitude := PyFloat b |},
   tr ++ [CallParse (lat_dms r); CallParse (lng_dms r);
          CallGeocode (PyFloat a) (PyFloat b)]).
Proof.
  intros H1 H2 HR.
  destruct (parse_dms_float_inv _ _ H1) as (N1 & T1 & Na).
  destruct (parse_dms_float_inv _ _ H2) as (N2 & T2 & Nb).
  rewrite process_row_present by (unfold present; now rewrite ?N1, ?N2, ?T1, ?T2).
  rewrite H1, H2. unfold get_address_from_coordinates. rewrite Na, Nb. cbn [orb].
  unfold try_except, bind, call_reverse_geocode, ret.
  rewrite <- app_assoc. cbn [app]. rewrite HR.
  rewrite <- app_assoc. reflexivity.
Qed.

Lemma process_row_lookup_failure_witness :
  process_row example_row failing [] =
  (Ok {| address := lit "Error getting address: timed out";
         latitude := PyFloat (S754_finite false 5293900828855682 (-47));
         longitude := PyFloat (S754_finite true 8614499636451854 (-46)) |},
   [CallParse (lat_dms example_row); CallParse (lng_dms example_row);
    CallGeocode (PyFloat (S754_finite false 5293900828855682 (-47)))
      (PyFloat (S754_finite true 8614499636451854 (-46)))]).
Proof.
  apply (process_row_lookup_failure example_row failing []
           (S754_finite false 5293900828855682 (-47))
           (S754_finite true 8614499636451854 (-46))
           (Failure (lit "timed out")));
    vm_compute; reflexivity.
Defined.

Lemma non_string_inv v :
  non_string v = true -> present v = true /\ parse_dms v = Ok PyNone.
Proof.
  unfold non_string. intros H. apply andb_true_iff in H as [P S].
  split; [exact P|]. apply parse_dms_not_str. now apply negb_true_iff.
Qed.

Lemma get_address_none_left c v tr :
  get_address_from_coordinates c PyNone v tr = (Ok (lit "No coordinates available"), tr).
Proof. reflexivity. Qed.

Lemma get_address_none_right c v tr :
  get_address_from_coordinates c v PyNone tr = (Ok (lit "No coordinates available"), tr).
Proof.
  unfold get_address_from_coordinates. cbn [isna]. now rewrite orb_true_r.
Qed.

(** C10, as stated, fails: with the number 5 as latitude and a well-formed
    longitude the address is "No coordinates available" and the latitude
    is [None], but the longitude is the parsed float, not [None]. *)
Lemma process_row_number :
  non_string (lat_dms number_row) = true
  /\ process_row number_row empty_handed [] =
     (Ok {| address := lit "No coordinates available";
            latitude := PyNone;
            longitude := PyFloat (S754_finite false 5293900828855682 (-47)) |},
      [CallParse (lat_dms number_row); CallParse (lng_dms number_row)]).
Proof. split; vm_compute; reflexivity. Qed.

(** C10, amended: when the latitude or the longitude field holds a truthy
    value that is neither null nor a string, the parser returns [None] for
    that field and [process_row] never calls the geocoding client.  Its
    row is fixed by the other field: the row of "No coordinates available"
    with both coordinates [None] when the other field does not pass the
    guard; the "Error: " row with both coordinates [None] when the parser
    raises on the other field; and else the address
    "No coordinates available" with, as coordinates, what the parser
    returned for each field: [None] for the non-string one and the parsed
    value for the other. *)
Theorem process_row_non_string r c tr :
  non_string (lat_dms r) = true \/ non_string (lng_dms r) = true ->
  (non_string (lat_dms r) = true -> parse_dms (lat_dms r) = Ok PyNone)
  /\ (non_string (lng_dms r) = true -> parse_dms (lng_dms r) = Ok PyNone)
  /\ process_row r c tr =
     if present (lat_dms r) && present (lng_dms r) then
       match parse_dms (lat_dms r), parse_dms (lng_dms r) with
       | Ok lat, Ok lng =>
           (Ok {| address := lit "No coordinates available";
                  latitude := lat; longitude := lng |},
            tr ++ [CallParse (lat_dms r); CallParse (lng_dms r)])
       | Ok _, Raise e =>
           (Ok (error_row e),
            tr ++ [CallParse (lat_dms r); CallParse (lng_dms r)])
       | Raise e, _ => (Ok (error_row e), tr ++ [CallParse (lat_dms r)])
       end
     else (Ok no_coordinates, tr).
Proof.
  intros H.
  split; [intros N; now apply non_string_inv in N|].
  split; [intros N; now apply non_string_inv in N|].
  destruct (present (lat_dms r)) eqn:P1; [destruct (present (lng_dms r)) eqn:P2|].
  - rewrite (process_row_present _ c tr P1 P2). cbn [andb].
    destruct H as [H|H]; apply non_string_inv in H as [_ E]; rewrite E.
    + destruct (parse_dms (lng_dms r)) as [v|e].
      * rewrite get_address_none_left. now rewrite <- app_assoc.
      * now rewrite <- app_assoc.
    + destruct (parse_dms (lat_dms r)) as [v|e]; [|reflexivity].
      rewrite get_address_none_right. now rewrite <- app_assoc.
  - rewrite andb_false_r. apply process_row_absent. now right.
  - cbn [andb]. apply process_row_absent. now left.
Qed.

Lemma process_row_non_string_witness :
  (non_string (lat_dms number_row) = true ->
   parse_dms (lat_dms number_row) = Ok PyNone)
  /\ (non_string (lng_dms number_row) = true ->
      parse_dms (lng_dms number_row) = Ok PyNone)
  /\ process_row number_row failing [] =
     if present (lat_dms number_row) && present (lng_dms number_row) then
       match parse_dms (lat_dms number_row), parse_dms (lng_dms number_row) with
       | Ok lat, Ok lng =>
           (Ok {| address := lit "No coordinates available";
                  latitude := lat; longitude := lng |},
            [] ++ [CallParse (lat_dms number_row); CallParse (lng_dms number_row)])
       | Ok _, Raise e =>
           (Ok (error_row e),
            [] ++ [CallParse (lat_dms number_row); CallParse (lng_dms number_row)])
       | Raise e, _ =>
           (Ok (error_row e), [] ++ [CallParse (lat_dms number_row)])
       end
     else (Ok no_coordinates, []).
Proof.
  apply (process_row_non_string number_row failing []). left. reflexivity.
Defined.

(** [process_row] never raises. *)
Lemma process_row_total r c tr :
  exists p tr', process_row r c tr = (Ok p, tr').
Proof.
  unfold process_row, try_except.
  match goal with |- context [match ?b tr with _ => _ end] =>
    destruct (b tr) as [[p|e] tr'] end; unfold ret; eauto.
Qed.

Lemma apply_rows_process rows c :
  forall tr, exists out tr',
    apply_rows (fun row => process_row row c) rows tr = (Ok out, tr')
    /\ length out = length rows.
Proof.
  induction rows as [|r rows IH]; intros tr; cbn [apply_rows].
  - exists [], tr. split; reflexivity.
  - unfold bind. destruct (process_row_total r c tr) as (p & tr1 & E). rewrite E.
    destruct (IH tr1) as (out & tr2 & E2 & L). rewrite E2.
    exists (p :: out), tr2. split; [reflexivity|]. cbn. now rewrite L.
Qed.

Lemma map_fst_combine {A B} (l : list A) (l' : list B) :
  length l = length l' -> map fst (combine l l') = l.
Proof.
  revert l'. induction l as [|a l IH]; intros [|b l'] H; cbn in *;
    try reflexivity; try discriminate. f_equal. apply IH. lia.
Qed.

(** C6: for a table that has a [SourceFile] column, the batch returns one
    output row per input row, and the [filename] column of the output is
    the [SourceFile] column of the input, row by row and unchanged. *)
Theorem output_rows_follow_input files input_file gmaps show_progress df tr :
  files input_file = Some df ->
  existsb (String.eqb "SourceFile") (columns df) = true ->
  exists out tr',
    process_coordinates_file files input_file gmaps show_progress tr = (Ok out, tr')
    /\ length out = length (data df)
    /\ map filename out = source_files df.
Proof.
  intros F C. unfold process_coordinates_file. rewrite F.
  unfold bind at 1. unfold lift, select_column. rewrite C.
  assert (E : (if show_progress then df_apply df else df_apply df)
              = df_apply (A:=processed) df) by now destruct show_progress.
  rewrite E. unfold df_apply, bind.
  destruct (apply_rows_process (map (series (columns df)) (data df)) gmaps tr)
    as (out & tr' & E2 & L).
  rewrite E2. unfold ret. eexists. eexists. split; [reflexivity|].
  rewrite length_map in L.
  unfold concat_columns. rewrite length_map, length_combine, length_map, L.
  split; [apply Nat.min_id|].
  rewrite map_map. cbn [filename].
  rewrite <- (map_map fst (fun x => x)), map_id.
  unfold source_files. apply map_fst_combine. now rewrite length_map, L.
Qed.

Lemma output_rows_follow_input_witness :
  exists out tr',
    process_coordinates_file example_files (lit "gps.csv") failing true []
    = (Ok out, tr')
    /\ length out = 3
    /\ map filename out
       = [PyStr (lit "img1.jpg"); PyStr (lit "img2.jpg"); PyStr (lit "img3.jpg")].
Proof.
  apply (output_rows_follow_input example_files (lit "gps.csv") failing true
           example_table []); reflexivity.
Defined.

(** The end-to-end example of the specification: one row, and a client
    that knows the place. *)
Example end_to_end :
  fst (process_coordinates_file
         (fun _ => Some {| columns := columns example_table;
                           data := firstn 1 (data example_table) |})
         (lit "gps.csv") cupertino true [])
  = Ok [ {| filename := PyStr (lit "img1.jpg");
            processed_fields :=
              {| address := lit "1 Infinite Loop, Cupertino, CA";
                 latitude := PyFloat (S754_finite false 5293900828855682 (-47));
                 longitude := PyFloat (S754_finite true 8614499636451854 (-46)) |} |} ].
Proof. vm_compute. reflexivity. Qed.

End ProcessRow.

(** ** More on the parser, the address lookup, the rows and the batch *)

Module OutcomeFacts.

Import Dms DmsFacts ParseFacts FloatFacts ResultFacts Rows Outcomes.

Local Open Scope string_scope.
Local Open Scope list_scope.

Lemma shape_tokens t : shape t = true -> tokens_match t = true.
Proof. unfold shape. intros H. rewrite !andb_true_iff in H. tauto. Qed.

Lemma py_int_digits_cases s :
  digits s = true ->
  py_int (Some s) = Ok (number s)
  \/ py_int (Some s) = Raise (ValueError (limit_message (length s))).
Proof.
  intros H. unfold py_int. rewrite (digits_value_number _ H).
  destruct (_ <=? _)%nat; [left|right; reflexivity].
  rewrite Z2N.id by apply number_nonneg. reflexivity.
Qed.

Lemma py_float_digits si sf :
  digits si = true ->
  match sf with None => true | Some f => digits f end = true ->
  exists x,
    py_float (@Some pystr (si ++ match sf with None => [] | Some f => full_stop :: f end))
    = Ok x /\ signed_as false x.
Proof.
  intros Hsi Hsf. pose proof (digits_inv _ Hsi) as [Nsi Fsi].
  unfold py_float. rewrite (split_stop_digits _ _ Fsi).
  destruct sf as [f|].
  - cbn [split_stop fst snd]. rewrite N.eqb_refl. cbn [fst snd].
    rewrite app_nil_r.
    rewrite (digits_value_number _ Hsi), (digits_value_number _ Hsf).
    rewrite (digits_value_number _ (digits_app _ _ Hsi Hsf)).
    eexists. split; [reflexivity|apply decimal_to_float_signed].
  - cbn [split_stop fst snd]. rewrite app_nil_r.
    rewrite (digits_value_number _ Hsi).
    eexists. split; [reflexivity|apply decimal_to_float_signed].
Qed.

Lemma int_truediv_60_raises M e :
  int_truediv M 60 = Raise e ->
  e = OverflowError (lit "integer division result too large for a float").
Proof.
  unfold int_truediv. cbn [Z.eqb].
  destruct (SFdiv prec emax (exact M) (exact 60)); intros H; inversion H; reflexivity.
Qed.

Lemma float_of_int_raises z e :
  float_of_int z = Raise e ->
  e = OverflowError (lit "int too large to convert to float").
Proof.
  unfold float_of_int.
  destruct (binary_normalize prec emax z 0 false); intros H; inversion H; reflexivity.
Qed.

(** The outcome of the conversions and of the arithmetic on the tokens of
    a text of the shape. *)
Lemma decimal_of_groups_shape t :
  shape t = true ->
  (exists a, decimal_of_groups (captured t) = Ok (PyFloat a)
             /\ signed_as (southerly (hemisphere t)) a)
  \/ (exists n, decimal_of_groups (captured t)
                 = Raise (ValueError (limit_message n)))
  \/ exists msg, decimal_of_groups (captured t) = Raise (OverflowError msg).
Proof.
  intros S. apply shape_tokens, tokens_match_inv in S as (HD & HM & Hsi & Hsf & Hh).
  unfold decimal_of_groups, captured. cbv zeta. cbn [group Nat.eqb].
  destruct (py_int_digits_cases _ HD) as [E|E]; rewrite E; cbn [rbind];
    [|right; left; eauto].
  destruct (py_int_digits_cases _ HM) as [E'|E']; rewrite E'; cbn [rbind];
    [|right; left; eauto].
  destruct (py_float_digits _ _ Hsi Hsf) as (x & Ex & Sx).
  unfold seconds_text. rewrite Ex. cbn [rbind].
  destruct (int_truediv (number (minutes_text t)) 60) as [m60|e] eqn:E60;
    cbn [rbind]; [|right; right; apply int_truediv_60_raises in E60; subst; eauto].
  apply int_truediv_signed in E60; [|apply number_nonneg|lia].
  unfold int_add_float.
  destruct (float_of_int (number (degrees_text t))) as [fd|e] eqn:EfD;
    cbn [rbind]; [|right; right; apply float_of_int_raises in EfD; subst; eauto].
  apply float_of_int_signed in EfD; [|apply number_nonneg].
  rewrite float_truediv_int_3600. cbn [rbind].
  assert (A : signed_as false
                (float_add (float_add fd m60)
                   (SFdiv prec emax x (S754_finite false 7916483719987200 (-41)))))
    by (apply float_add_signed; [now apply float_add_signed|now apply SFdiv_signed]).
  rewrite (south_or_west_southerly _ Hh). cbn [rbind]. left.
  destruct (southerly (hemisphere t)).
  - rewrite float_mul_int_minus_one. cbn [rbind]. eexists. split; [reflexivity|].
    now apply float_mul_signed.
  - eexists. split; [reflexivity|exact A].
Qed.

Lemma lstrip_spaces a s : spaces a = true -> lstrip (a ++ s) = lstrip s.
Proof.
  unfold spaces. induction a as [|x a IH]; cbn [app forallb lstrip]; intros H.
  - reflexivity.
  - apply andb_true_iff in H as [Hx Ha]. rewrite Hx. now apply IH.
Qed.

Lemma lstrip_keeps s b : lstrip s <> [] -> lstrip (s ++ b) = lstrip s ++ b.
Proof.
  induction s as [|x s IH]; cbn [lstrip app]; [congruence|].
  destruct (isspace x); [exact IH|reflexivity].
Qed.

Lemma lstrip_all_spaces s b :
  lstrip s = [] -> spaces b = true -> lstrip (s ++ b) = [].
Proof.
  induction s as [|x s IH]; cbn [lstrip app]; intros H Hb.
  - rewrite <- (app_nil_r b). rewrite lstrip_spaces by exact Hb. reflexivity.
  - destruct (isspace x); [now apply IH|discriminate].
Qed.

(** [strip] does not see the white space around a text. *)
Lemma strip_surrounded a s b :
  spaces a = true -> spaces b = true -> strip (a ++ s ++ b) = strip s.
Proof.
  intros Ha Hb. unfold strip. rewrite (lstrip_spaces _ _ Ha).
  destruct (lstrip s) as [|x l] eqn:E.
  - now rewrite (lstrip_all_spaces _ _ E Hb).
  - rewrite lstrip_keeps by (rewrite E; discriminate). rewrite E.
    rewrite rev_app_distr. rewrite lstrip_spaces; [reflexivity|].
    unfold spaces. now rewrite forallb_rev.
Qed.

Lemma digits_acc_same s :
  forall s' acc, same_digits s s' -> digits_acc acc s = digits_acc acc s'.
Proof.
  unfold same_digits.
  induction s as [|c s IH]; intros [|c' s'] acc H; cbn in H; try discriminate;
    [reflexivity|].
  inversion H as [[Hc Hs]]. cbn [digits_acc]. rewrite Hc.
  destruct (decimal_value c'); [now apply IH|reflexivity].
Qed.

Lemma digits_value_same s s' : same_digits s s' -> digits_value s = digits_value s'.
Proof.
  intros H. pose proof (digits_acc_same _ _ 0%N H) as A.
  destruct s, s'; try discriminate; [reflexivity|exact A].
Qed.

Lemma same_digits_length s s' : same_digits s s' -> length s = length s'.
Proof. intros H. apply (f_equal (@length _)) in H. now rewrite !length_map in H. Qed.

Lemma same_digits_app a a' b b' :
  same_digits a a' -> same_digits b b' -> same_digits (a ++ b) (a' ++ b').
Proof. unfold same_digits. intros H H'. now rewrite !map_app, H, H'. Qed.

Lemma number_same s s' : same_digits s s' -> number s = number s'.
Proof. intros H. unfold number. now rewrite (digits_value_same _ _ H). Qed.

Lemma py_int_same s s' :
  digits s' = true -> same_digits s s' -> py_int (Some s) = py_int (Some s').
Proof.
  intros D H. unfold py_int.
  rewrite (digits_value_same _ _ H), (same_digits_length _ _ H).
  now rewrite (digits_value_number _ D).
Qed.

Lemma seconds_of_same t t' :
  same_digits (seconds_int t) (seconds_int t') ->
  same_fraction (seconds_frac t) (seconds_frac t') ->
  seconds_of t = seconds_of t'.
Proof.
  unfold seconds_of, same_fraction. intros Hi Hf.
  destruct (seconds_frac t) as [f|], (seconds_frac t') as [f'|];
    try contradiction.
  - now rewrite (number_same _ _ (same_digits_app _ _ _ _ Hi Hf)),
      (same_digits_length _ _ Hf).
  - now rewrite (number_same _ _ Hi).
Qed.

Lemma well_formed_tokens t : well_formed t = true -> tokens_ok t = true.
Proof. unfold well_formed. intros H. rewrite !andb_true_iff in H. tauto. Qed.

Lemma dict_get_absent d key :
  has_key d key = false -> dict_get d key = Raise (KeyError key).
Proof.
  induction d as [|[k v] d IH]; cbn [dict_get has_key existsb fst];
    intros H; [reflexivity|].
  apply orb_false_iff in H as [-> H]. now apply IH.
Qed.

Lemma get_address_run c lat lng tr :
  exists a,
    get_address_from_coordinates c lat lng tr
    = (Ok a, tr ++ if isna lat || isna lng then [] else [CallGeocode lat lng]).
Proof.
  unfold get_address_from_coordinates.
  destruct (isna lat || isna lng).
  - rewrite app_nil_r. unfold ret. eauto.
  - unfold try_except, bind, call_reverse_geocode, ret, lift.
    destruct (reverse_geocode c tr lat lng) as [[|first l]|e]; eauto.
    destruct (dict_get first _); eauto.
Qed.

(** The run of [process_row]: what it returns and the calls it makes,
    case by case. *)
Lemma process_row_run r c tr :
  exists p calls,
    process_row r c tr = (Ok p, tr ++ calls)
    /\ match present (lat_dms r) && present (lng_dms r),
             parse_dms (lat_dms r), parse_dms (lng_dms r) with
       | false, _, _ => calls = [] /\ p = no_coordinates
       | true, Raise e, _ =>
           calls = [CallParse (lat_dms r)] /\ p = error_row e
       | true, Ok _, Raise e =>
           calls = [CallParse (lat_dms r); CallParse (lng_dms r)]
           /\ p = error_row e
       | true, Ok lat, Ok lng =>
           latitude p = lat /\ longitude p = lng
           /\ fst (get_address_from_coordinates c lat lng
                     (tr ++ [CallParse (lat_dms r); CallParse (lng_dms r)]))
              = Ok (address p)
           /\ ((exists a b,
                  lat = PyFloat a /\ lng = PyFloat b
                  /\ a <> S754_nan /\ b <> S754_nan
                  /\ calls = [CallParse (lat_dms r); CallParse (lng_dms r);
                              CallGeocode lat lng])
               \/ ((lat = PyNone \/ lng = PyNone)
                   /\ address p = lit "No coordinates available"
                   /\ calls = [CallParse (lat_dms r); CallParse (lng_dms r)]))
       end.
Proof.
  destruct (present (lat_dms r)) eqn:P1; [destruct (present (lng_dms r)) eqn:P2|].
  - rewrite (process_row_present r c tr P1 P2). cbn [andb].
    destruct (parse_dms (lat_dms r)) as [lat|e] eqn:E1.
    2:{ exists (error_row e), [CallParse (lat_dms r)]. repeat split. }
    destruct (parse_dms (lng_dms r)) as [lng|e] eqn:E2.
    2:{ exists (error_row e), [CallParse (lat_dms r); CallParse (lng_dms r)].
        rewrite <- app_assoc. repeat split. }
    rewrite <- app_assoc. cbn [app].
    destruct (get_address_run c lat lng
                (tr ++ [CallParse (lat_dms r); CallParse (lng_dms r)]))
      as [a Ha].
    rewrite Ha.
    eexists {| address := a; latitude := lat; longitude := lng |}, _.
    rewrite <- !app_assoc. cbn [app latitude longitude address fst].
    split; [reflexivity|]. do 3 (split; [reflexivity|]).
    destruct (parse_dms_returns _ _ E1) as [->|(x & -> & Hx)].
    { right. split; [now left|]. cbn [isna orb] in Ha |- *.
      unfold get_address_from_coordinates in Ha. cbn [isna orb] in Ha.
      inversion Ha. split; reflexivity. }
    destruct (parse_dms_returns _ _ E2) as [->|(y & -> & Hy)].
    { right. split; [now right|].
      unfold get_address_from_coordinates in Ha. cbn [isna] in Ha.
      rewrite orb_true_r in Ha. inversion Ha.
      cbn [isna]. rewrite orb_true_r. split; reflexivity. }
    left. exists x, y. rewrite Hx, Hy. cbn [orb].
    repeat split; try reflexivity; intros ->; discriminate.
  - rewrite (process_row_absent r c tr (or_intror P2)).
    exists no_coordinates, []. rewrite app_nil_r, andb_false_r.
    repeat split.
  - rewrite (process_row_absent r c tr (or_introl P1)).
    exists no_coordinates, []. rewrite app_nil_r. cbn [andb].
    repeat split.
Qed.

(** The coordinates of the row [process_row] returns. *)
Lemma process_row_cells r c tr :
  exists p tr',
    process_row r c tr = (Ok p, tr')
    /\ coordinate (latitude p) /\ coordinate (longitude p).
Proof.
  assert (N : coordinate PyNone) by (now left).
  assert (R : forall v x, parse_dms v = Ok x -> coordinate x).
  { intros v x E. destruct (parse_dms_returns _ _ E) as [->|(a & -> & Ha)];
      [exact N|right; eauto]. }
  destruct (present (lat_dms r)) eqn:P1; [destruct (present (lng_dms r)) eqn:P2|].
  - rewrite (process_row_present r c tr P1 P2).
    destruct (parse_dms (lat_dms r)) as [lat|e] eqn:E1;
      [|eexists _, _; repeat split; exact N].
    destruct (parse_dms (lng_dms r)) as [lng|e] eqn:E2;
      [|eexists _, _; repeat split; exact N].
    destruct (get_address_run c lat lng
                ((tr ++ [CallParse (lat_dms r)]) ++ [CallParse (lng_dms r)]))
      as [a Ha].
    rewrite Ha. eexists _, _. split; [reflexivity|]. split; eapply R; eassumption.
  - rewrite (process_row_absent r c tr (or_intror P2)).
    eexists _, _. repeat split; exact N.
  - rewrite (process_row_absent r c tr (or_introl P1)).
    eexists _, _. repeat split; exact N.
Qed.

Lemma geocode_calls_app tr tr' :
  geocode_calls (tr ++ tr') = (geocode_calls tr + geocode_calls tr')%nat.
Proof. unfold geocode_calls. now rewrite filter_app, length_app. Qed.

Lemma process_row_one_call r c tr :
  exists p tr',
    process_row r c tr = (Ok p, tr')
    /\ (geocode_calls tr <= geocode_calls tr' <= S (geocode_calls tr))%nat.
Proof.
  destruct (process_row_run r c tr) as (p & calls & E & H).
  exists p, (tr ++ calls). split; [exact E|]. rewrite geocode_calls_app.
  destruct (present (lat_dms r) && present (lng_dms r));
    [|destruct H as [-> _]; cbn; lia].
  destruct (parse_dms (lat_dms r)) as [lat|e];
    [|destruct H as [-> _]; cbn; lia].
  destruct (parse_dms (lng_dms r)) as [lng|e];
    [|destruct H as [-> _]; cbn; lia].
  destruct H as (_ & _ & _ & [(a & b & _ & _ & _ & _ & ->)|(_ & _ & ->)]);
    cbn; lia.
Qed.

Lemma apply_rows_calls rows c :
  forall tr, exists out tr',
    apply_rows (fun row => process_row row c) rows tr = (Ok out, tr')
    /\ (geocode_calls tr <= geocode_calls tr' <= geocode_calls tr + length rows)%nat.
Proof.
  induction rows as [|r rows IH]; intros tr; cbn [apply_rows].
  - exists [], tr. split; [reflexivity|]. cbn. lia.
  - unfold bind. destruct (process_row_one_call r c tr) as (p & tr1 & E & L).
    rewrite E. destruct (IH tr1) as (out & tr2 & E2 & L2). rewrite E2.
    exists (p :: out), tr2. split; [reflexivity|]. cbn [length]. lia.
Qed.

Lemma get_address_stateless c lat lng tr tr' :
  stateless c ->
  fst (get_address_from_coordinates c lat lng tr)
  = fst (get_address_from_coordinates c lat lng tr').
Proof.
  intros S. unfold get_address_from_coordinates.
  destruct (isna lat || isna lng); [reflexivity|].
  unfold try_except, bind, call_reverse_geocode, ret, lift.
  rewrite (S tr tr').
  destruct (reverse_geocode c tr' lat lng) as [[|first l]|e]; try reflexivity.
  destruct (dict_get first _); reflexivity.
Qed.

Lemma process_row_stateless c r tr tr' :
  stateless c -> fst (process_row r c tr) = fst (process_row r c tr').
Proof.
  intros S.
  destruct (present (lat_dms r)) eqn:P1; [destruct (present (lng_dms r)) eqn:P2|].
  - rewrite !(process_row_present r c _ P1 P2).
    destruct (parse_dms (lat_dms r)) as [lat|e]; [|reflexivity].
    destruct (parse_dms (lng_dms r)) as [lng|e]; [|reflexivity].
    pose proof (get_address_stateless c lat lng
      ((tr ++ [CallParse (lat_dms r)]) ++ [CallParse (lng_dms r)])
      ((tr' ++ [CallParse (lat_dms r)]) ++ [CallParse (lng_dms r)]) S) as G.
    destruct (get_address_from_coordinates c lat lng
                ((tr ++ _) ++ _)) as [[a|e] t1];
    destruct (get_address_from_coordinates c lat lng
                ((tr' ++ _) ++ _)) as [[a'|e'] t2];
    cbn [fst] in G |- *; congruence.
  - now rewrite !(process_row_absent r c _ (or_intror P2)).
  - now rewrite !(process_row_absent r c _ (or_introl P1)).
Qed.

Lemma apply_rows_stateless c rows :
  stateless c ->
  forall tr, exists out tr',
    apply_rows (fun row => process_row row c) rows tr = (Ok out, tr')
    /\ Forall2 (fun r p => fst (process_row r c []) = Ok p) rows out.
Proof.
  intros S. induction rows as [|r rows IH]; intros tr; cbn [apply_rows].
  - exists [], tr. split; [reflexivity|constructor].
  - unfold bind. destruct (process_row_total r c tr) as (p & tr1 & E).
    rewrite E. destruct (IH tr1) as (out & tr2 & E2 & F). rewrite E2.
    exists (p :: out), tr2. split; [reflexivity|]. constructor; [|exact F].
    now rewrite (process_row_stateless c r [] tr S), E.
Qed.

Lemma Forall2_concat {A} (R : A -> processed -> Prop) rows names ps :
  length names = length ps ->
  Forall2 R rows ps ->
  Forall2 (fun r o => R r (processed_fields o)) rows (concat_columns names ps).
Proof.
  intros L F. revert names L.
  induction F as [|r p rows ps H F IH]; intros [|n names] L; cbn in L;
    try discriminate; cbn; constructor; [exact H|apply IH; lia].
Qed.

Lemma Forall2_length_eq {A B} (R : A -> B -> Prop) l l' :
  Forall2 R l l' -> length l = length l'.
Proof. induction 1; cbn; congruence. Qed.

End OutcomeFacts.

Section Coverage.

Import Dms DmsFacts ParseFacts FloatFacts ResultFacts Rows Outcomes OutcomeFacts.

Local Open Scope string_scope.
Local Open Scope list_scope.

(** X1: the pattern of [parse_dms] matches exactly the texts of the
    shape: digits, the word deg, digits and a minute mark, digits with an
    optional fraction and a second mark, a hemisphere letter, with white
    space required after deg and after each mark and allowed elsewhere. *)
Theorem dms_pattern_shape x :
  (exists m, re_match dms_flags dms_pattern x = Some m)
  <-> exists t, shape t = true /\ x = render t.
Proof.
  split.
  - intros [m H]. apply dms_pattern_inv in H as (t & S & E & _). eauto.
  - intros (t & S & ->). destruct (match_render _ S) as (m & H & _). eauto.
Qed.

(** X2: on a string, [parse_dms] raises nothing but the ValueError of a
    text the pattern does not match and, on a text of the shape, the
    ValueError or OverflowError of a number too long or too large. *)
Theorem parse_dms_exceptions s e :
  parse_dms (PyStr s) = Raise e ->
  e = ValueError (lit "Invalid DMS format: " ++ s)
  \/ exists t msg,
       shape t = true /\ strip s = render t
       /\ (e = ValueError msg \/ e = OverflowError msg).
Proof.
  unfold parse_dms. cbn [isna isinstance_str negb orb].
  destruct (re_match dms_flags dms_pattern (strip s)) as [m|] eqn:E.
  - apply dms_pattern_inv in E as (t & S & R & G). rewrite G.
    destruct (decimal_of_groups_shape _ S) as [(a & -> & _)|[(n & ->)|(msg & ->)]];
      intros H; inversion H; right; eauto 8.
  - intros H; inversion H. auto.
Qed.

Lemma parse_dms_exceptions_witness :
  ValueError (lit "Invalid DMS format: 37 deg 36' N")
  = ValueError (lit "Invalid DMS format: " ++ lit "37 deg 36' N")
  \/ exists t msg,
       shape t = true /\ strip (lit "37 deg 36' N") = render t
       /\ (ValueError (lit "Invalid DMS format: 37 deg 36' N") = ValueError msg
           \/ ValueError (lit "Invalid DMS format: 37 deg 36' N")
              = OverflowError msg).
Proof.
  apply (parse_dms_exceptions (lit "37 deg 36' N")). vm_compute. reflexivity.
Defined.

(** X3: what [parse_dms] returns on a string is a float that is no NaN,
    with the sign bit set exactly when the hemisphere letter is an S or a
    W in either case. *)
Theorem parse_dms_sign s r :
  parse_dms (PyStr s) = Ok r ->
  exists t a,
    shape t = true /\ strip s = render t /\ r = PyFloat a
    /\ signed_as (southerly (hemisphere t)) a.
Proof.
  unfold parse_dms. cbn [isna isinstance_str negb orb].
  destruct (re_match dms_flags dms_pattern (strip s)) as [m|] eqn:E; [|discriminate].
  apply dms_pattern_inv in E as (t & S & R & G). rewrite G.
  destruct (decimal_of_groups_shape _ S) as [(a & Ea & Sa)|[(n & Ev)|(msg & Ev)]];
    rewrite ?Ea, ?Ev; intros H; inversion H; subst.
  exists t, a. auto.
Qed.

Lemma parse_dms_sign_witness :
  exists t a,
    shape t = true
    /\ strip (lit "122 deg 25' 9.85" ++ [quotation] ++ lit " W") = render t
    /\ PyFloat (S754_finite true 8614499636451854 (-46)) = PyFloat a
    /\ signed_as (southerly (hemisphere t)) a.
Proof.
  apply (parse_dms_sign (lit "122 deg 25' 9.85" ++ [quotation] ++ lit " W")).
  vm_compute. reflexivity.
Defined.

(** X4: white space before and after the text changes no value
    [parse_dms] returns. *)
Theorem parse_dms_surrounded a s b r :
  spaces a = true -> spaces b = true ->
  (parse_dms (PyStr (a ++ s ++ b)) = Ok r <-> parse_dms (PyStr s) = Ok r).
Proof.
  intros Ha Hb. unfold parse_dms. cbn [isna isinstance_str negb orb].
  rewrite (strip_surrounded _ _ _ Ha Hb).
  destruct (re_match dms_flags dms_pattern (strip s)); [reflexivity|].
  split; discriminate.
Qed.

Lemma parse_dms_surrounded_witness :
  parse_dms (PyStr (lit "  " ++ render Examples.example_text ++ [line_feed]))
  = Ok (PyFloat (S754_finite false 5293900828855682 (-47)))
  <-> parse_dms (PyStr (render Examples.example_text))
      = Ok (PyFloat (S754_finite false 5293900828855682 (-47))).
Proof.
  apply (parse_dms_surrounded (lit "  ") (render Examples.example_text)
           [line_feed]); reflexivity.
Defined.

(** X15: the result of [parse_dms] on a well-formed text depends on the
    decimal values of its digits only, not on their script: two
    well-formed texts whose numbers have the same digit values, with
    hemisphere letters that differ by case at most, parse to the same
    result. *)
Theorem parse_dms_digit_scripts t t' :
  well_formed t = true -> well_formed t' = true ->
  same_digits (degrees_text t) (degrees_text t') ->
  same_digits (minutes_text t) (minutes_text t') ->
  same_digits (seconds_int t) (seconds_int t') ->
  same_fraction (seconds_frac t) (seconds_frac t') ->
  toupper (hemisphere t) = toupper (hemisphere t') ->
  parse_dms (PyStr (render t)) = parse_dms (PyStr (render t')).
Proof.
  intros W W' HD HM HS HF HH.
  rewrite (parse_dms_render _ W), (parse_dms_render _ W').
  pose proof (well_formed_tokens _ W) as T.
  pose proof (well_formed_tokens _ W') as T'.
  pose proof (tokens_match_inv _ (tokens_ok_match _ T')) as (DD & DM & _).
  unfold decimal_of_groups, captured. cbv zeta. cbn [group Nat.eqb].
  rewrite (py_int_same _ _ DD HD), (py_int_same _ _ DM HM).
  rewrite (py_float_seconds _ T), (py_float_seconds _ T').
  rewrite (seconds_of_same _ _ HS HF).
  unfold south_or_west, upper. cbn [map]. now rewrite HH.
Qed.

Lemma parse_dms_digit_scripts_witness :
  parse_dms (PyStr (render arabic_indic_text))
  = parse_dms (PyStr (render Examples.example_text)).
Proof.
  apply (parse_dms_digit_scripts arabic_indic_text Examples.example_text);
    vm_compute; reflexivity.
Defined.

(** X5: [get_address_from_coordinates] never raises; it calls the client
    once when both coordinates are there, and not at all when one of them
    is [None] or NaN, where the address is "No coordinates available". *)
Theorem get_address_calls c lat lng tr :
  exists a,
    get_address_from_coordinates c lat lng tr
    = (Ok a, tr ++ if isna lat || isna lng then [] else [CallGeocode lat lng])
    /\ (isna lat || isna lng = true -> a = lit "No coordinates available").
Proof.
  unfold get_address_from_coordinates.
  destruct (isna lat || isna lng).
  - rewrite app_nil_r. unfold ret. eauto.
  - unfold try_except, bind, call_reverse_geocode, ret, lift.
    destruct (reverse_geocode c tr lat lng) as [[|first l]|e];
      try (eexists; split; [reflexivity|discriminate]).
    destruct (dict_get first _); eexists; split; try reflexivity; discriminate.
Qed.

(** X6: when the first result of the client has no key formatted_address,
    the KeyError of the lookup is caught and the address is the error
    text with the key in quotes. *)
Theorem get_address_missing_key c lat lng tr first others :
  isna lat = false -> isna lng = false ->
  reverse_geocode c tr lat lng = Ok (first :: others) ->
  has_key first (lit "formatted_address") = false ->
  get_address_from_coordinates c lat lng tr
  = (Ok (lit "Error getting address: 'formatted_address'"),
     tr ++ [CallGeocode lat lng]).
Proof.
  intros N1 N2 R A. unfold get_address_from_coordinates. rewrite N1, N2.
  cbn [orb]. unfold try_except, bind, call_reverse_geocode, ret, lift.
  rewrite R, (dict_get_absent _ _ A). reflexivity.
Qed.

Lemma get_address_missing_key_witness :
  get_address_from_coordinates keyless (PyFloat (S754_finite false 5293900828855682 (-47)))
    (PyFloat (S754_finite true 8614499636451854 (-46))) []
  = (Ok (lit "Error getting address: 'formatted_address'"),
     [] ++ [CallGeocode (PyFloat (S754_finite false 5293900828855682 (-47)))
              (PyFloat (S754_finite true 8614499636451854 (-46)))]).
Proof.
  apply (get_address_missing_key keyless _ _ [] [(lit "place_id", lit "ChIJ")] []);
    reflexivity.
Defined.

(** X7: only the first result of the client counts: two clients whose
    replies start with the same result give the same address. *)
Theorem get_address_first_result c c' lat lng tr first others others' :
  reverse_geocode c tr lat lng = Ok (first :: others) ->
  reverse_geocode c' tr lat lng = Ok (first :: others') ->
  get_address_from_coordinates c lat lng tr
  = get_address_from_coordinates c' lat lng tr.
Proof.
  intros R R'. unfold get_address_from_coordinates.
  destruct (isna lat || isna lng); [reflexivity|].
  unfold try_except, bind, call_reverse_geocode, ret, lift.
  now rewrite R, R'.
Qed.

Lemma get_address_first_result_witness :
  get_address_from_coordinates cupertino (PyFloat (S754_finite false 5293900828855682 (-47)))
    (PyFloat (S754_finite true 8614499636451854 (-46))) []
  = get_address_from_coordinates two_places
      (PyFloat (S754_finite false 5293900828855682 (-47)))
      (PyFloat (S754_finite true 8614499636451854 (-46))) [].
Proof.
  apply (get_address_first_result cupertino two_places _ _ []
           [(lit "formatted_address", lit "1 Infinite Loop, Cupertino, CA")]
           [] [[(lit "formatted_address", lit "Cupertino, CA")]]);
    reflexivity.
Defined.

(** X8: when both fields parse to floats and the first result of the
    client has an address, [process_row] returns that address with the two
    parsed floats, after the two parses and one call of the client. *)
Theorem process_row_address_found r c tr a b first others addr :
  parse_dms (lat_dms r) = Ok (PyFloat a) ->
  parse_dms (lng_dms r) = Ok (PyFloat b) ->
  reverse_geocode c (tr ++ [CallParse (lat_dms r); CallParse (lng_dms r)])
    (PyFloat a) (PyFloat b) = Ok (first :: others) ->
  dict_get first (lit "formatted_address") = Ok addr ->
  process_row r c tr =
  (Ok {| address := addr; latitude := PyFloat a; longitude := PyFloat b |},
   tr ++ [CallParse (lat_dms r); CallParse (lng_dms r);
          CallGeocode (PyFloat a) (PyFloat b)]).
Proof.
  intros H1 H2 HR HA.
  destruct (parse_dms_float_inv _ _ H1) as (N1 & T1 & Na).
  destruct (parse_dms_float_inv _ _ H2) as (N2 & T2 & Nb).
  rewrite process_row_present by (unfold present; now rewrite ?N1, ?N2, ?T1, ?T2).
  rewrite H1, H2. unfold get_address_from_coordinates. rewrite Na, Nb. cbn [orb].
  unfold try_except, bind, call_reverse_geocode, ret, lift.
  rewrite <- app_assoc. cbn [app]. rewrite HR, HA.
  rewrite <- app_assoc. reflexivity.
Qed.

Lemma process_row_address_found_witness :
  process_row example_row cupertino [] =
  (Ok {| address := lit "1 Infinite Loop, Cupertino, CA";
         latitude := PyFloat (S754_finite false 5293900828855682 (-47));
         longitude := PyFloat (S754_finite true 8614499636451854 (-46)) |},
   [] ++ [CallParse (lat_dms example_row); CallParse (lng_dms example_row);
          CallGeocode (PyFloat (S754_finite false 5293900828855682 (-47)))
            (PyFloat (S754_finite true 8614499636451854 (-46)))]).
Proof.
  apply (process_row_address_found example_row cupertino [] _ _
           [(lit "formatted_address", lit "1 Infinite Loop, Cupertino, CA")] []);
    vm_compute; reflexivity.
Defined.

(** X9: when both fields parse to floats and the client finds nothing,
    the address is "Address not found" and the two parsed floats are
    kept. *)
Theorem process_row_address_not_found r c tr a b :
  parse_dms (lat_dms r) = Ok (PyFloat a) ->
  parse_dms (lng_dms r) = Ok (PyFloat b) ->
  reverse_geocode c (tr ++ [CallParse (lat_dms r); CallParse (lng_dms r)])
    (PyFloat a) (PyFloat b) = Ok [] ->
  process_row r c tr =
  (Ok {| address := lit "Address not found";
         latitude := PyFloat a; longitude := PyFloat b |},
   tr ++ [CallParse (lat_dms r); CallParse (lng_dms r);
          CallGeocode (PyFloat a) (PyFloat b)]).
Proof.
  intros H1 H2 HR.
  destruct (parse_dms_float_inv _ _ H1) as (N1 & T1 & Na).
  destruct (parse_dms_float_inv _ _ H2) as (N2 & T2 & Nb).
  rewrite process_row_present by (unfold present; now rewrite ?N1, ?N2, ?T1, ?T2).
  rewrite H1, H2. unfold get_address_from_coordinates. rewrite Na, Nb. cbn [orb].
  unfold try_except, bind, call_reverse_geocode, ret, lift.
  rewrite <- app_assoc. cbn [app]. rewrite HR.
  rewrite <- app_assoc. reflexivity.
Qed.

Lemma process_row_address_not_found_witness :
  process_row example_row empty_handed [] =
  (Ok {| address := lit "Address not found";
         latitude := PyFloat (S754_finite false 5293900828855682 (-47));
         longitude := PyFloat (S754_finite true 8614499636451854 (-46)) |},
   [] ++ [CallParse (lat_dms example_row); CallParse (lng_dms example_row);
          CallGeocode (PyFloat (S754_finite false 5293900828855682 (-47)))
            (PyFloat (S754_finite true 8614499636451854 (-46)))]).
Proof.
  apply (process_row_address_not_found example_row empty_handed []);
    vm_compute; reflexivity.
Defined.

(** X10: [process_row] never raises, and its run is fixed by the guard
    and by what the parser does on the two fields.  When a field does not
    pass the guard (it is null or falsy) there is no call and the row is
    that of "No coordinates available".  Otherwise the latitude is parsed
    first; if that raises, nothing else is called and the row is the
    "Error: " row of that exception.  Else the longitude is parsed; if
    that raises, the row is the "Error: " row of that exception.  Else
    the coordinates of the row are the two parsed values and its address
    is the one of the lookup on them: the client is called, once and last,
    exactly when both values are floats (never NaN), and when one of them
    is [None] it is not called and the address is
    "No coordinates available". *)
Theorem process_row_calls r c tr :
  exists p calls,
    process_row r c tr = (Ok p, tr ++ calls)
    /\ match present (lat_dms r) && present (lng_dms r),
             parse_dms (lat_dms r), parse_dms (lng_dms r) with
       | false, _, _ => calls = [] /\ p = no_coordinates
       | true, Raise e, _ =>
           calls = [CallParse (lat_dms r)] /\ p = error_row e
       | true, Ok _, Raise e =>
           calls = [CallParse (lat_dms r); CallParse (lng_dms r)]
           /\ p = error_row e
       | true, Ok lat, Ok lng =>
           latitude p = lat /\ longitude p = lng
           /\ fst (get_address_from_coordinates c lat lng
                     (tr ++ [CallParse (lat_dms r); CallParse (lng_dms r)]))
              = Ok (address p)
           /\ ((exists a b,
                  lat = PyFloat a /\ lng = PyFloat b
                  /\ a <> S754_nan /\ b <> S754_nan
                  /\ calls = [CallParse (lat_dms r); CallParse (lng_dms r);
                              CallGeocode lat lng])
               \/ ((lat = PyNone \/ lng = PyNone)
                   /\ address p = lit "No coordinates available"
                   /\ calls = [CallParse (lat_dms r); CallParse (lng_dms r)]))
       end.
Proof.
  destruct (process_row_run r c tr) as (p & calls & E & H).
  exists p, calls. split; [exact E|exact H].
Qed.

(** X11: in the row [process_row] returns, the latitude and the longitude
    are each null or a float that is not null: never a string, an integer
    or a boolean, whatever the fields of the input row hold. *)
Theorem process_row_coordinates r c tr :
  exists p tr',
    process_row r c tr = (Ok p, tr')
    /\ coordinate (latitude p) /\ coordinate (longitude p).
Proof.
  destruct (process_row_cells r c tr) as (p & tr' & E & C1 & C2).
  exists p, tr'. repeat split; assumption.
Qed.

(** X12: a table without a SourceFile column makes the batch raise
    KeyError before any row is processed: no parse and no call of the
    client happens. *)
Theorem batch_without_source_file files input_file gmaps show_progress df tr :
  files input_file = Some df ->
  existsb (String.eqb "SourceFile") (columns df) = false ->
  exists k,
    process_coordinates_file files input_file gmaps show_progress tr
    = (Raise (KeyError k), tr).
Proof.
  intros F C. unfold process_coordinates_file. rewrite F.
  unfold bind, lift, select_column. rewrite C. eauto.
Qed.

Lemma batch_without_source_file_witness :
  exists k,
    process_coordinates_file (fun _ => Some unnamed_table) (lit "gps.csv")
      cupertino true []
    = (Raise (KeyError k), []).
Proof.
  apply (batch_without_source_file (fun _ => Some unnamed_table) (lit "gps.csv")
           cupertino true unnamed_table []); reflexivity.
Defined.

(** X13: the batch calls the client at most once per row of the table. *)
Theorem batch_call_budget files input_file gmaps show_progress df tr :
  files input_file = Some df ->
  (geocode_calls (snd (process_coordinates_file files input_file gmaps
                         show_progress tr))
   <= geocode_calls tr + length (data df))%nat.
Proof.
  intros F. unfold process_coordinates_file. rewrite F.
  unfold bind, lift. destruct (select_column df "SourceFile") as [names|e];
    [|cbn [snd]; lia].
  assert (A : forall m : M (list processed),
             m = df_apply df (fun row => process_row row gmaps) ->
             (geocode_calls
                (snd (let (r, tr') := m tr in
                      match r with
                      | Ok a => ret (concat_columns names a) tr'
                      | Raise e => (Raise e, tr')
                      end))
              <= geocode_calls tr + length (data df))%nat).
  { intros m ->. unfold df_apply.
    destruct (apply_rows_calls (map (series (columns df)) (data df)) gmaps tr)
      as (out & tr' & E & L).
    rewrite E. cbn [snd ret]. unfold ret. cbn [snd].
    rewrite length_map in L. lia. }
  destruct show_progress; apply A; reflexivity.
Qed.

Lemma batch_call_budget_witness :
  (geocode_calls (snd (process_coordinates_file example_files (lit "gps.csv")
                         cupertino true []))
   <= geocode_calls [] + length (data example_table))%nat.
Proof.
  apply (batch_call_budget example_files (lit "gps.csv") cupertino true
           example_table []); reflexivity.
Defined.

(** X14: with a client whose replies do not depend on the calls made
    before, every output row of the batch agrees with what [process_row]
    returns for its input row alone, whatever the rows before it were:
    the same address, and coordinates that are equal or both null. *)
Theorem batch_rows_independent files input_file gmaps show_progress df tr :
  stateless gmaps ->
  files input_file = Some df ->
  existsb (String.eqb "SourceFile") (columns df) = true ->
  exists out,
    fst (process_coordinates_file files input_file gmaps show_progress tr) = Ok out
    /\ Forall2 (fun r o =>
                  exists p,
                    fst (process_row r gmaps []) = Ok p
                    /\ address (processed_fields o) = address p
                    /\ same_cell (latitude (processed_fields o)) (latitude p)
                    /\ same_cell (longitude (processed_fields o)) (longitude p))
         (map (series (columns df)) (data df)) out.
Proof.
  intros S F C. unfold process_coordinates_file. rewrite F.
  unfold bind, lift, select_column. rewrite C.
  destruct (apply_rows_stateless gmaps (map (series (columns df)) (data df)) S tr)
    as (ps & tr' & E & R).
  assert (L : length (map (fun cells =>
                row_get (series (columns df) cells) "SourceFile" (PyFloat S754_nan))
                (data df)) = length ps).
  { rewrite <- (Forall2_length_eq _ _ _ R). now rewrite !length_map. }
  exists (concat_columns
            (map (fun cells =>
                    row_get (series (columns df) cells) "SourceFile" (PyFloat S754_nan))
               (data df)) ps).
  split.
  - destruct show_progress; unfold df_apply; rewrite E; reflexivity.
  - apply (Forall2_concat
             (fun r q =>
                exists p,
                  fst (process_row r gmaps []) = Ok p
                  /\ address q = address p
                  /\ same_cell (latitude q) (latitude p)
                  /\ same_cell (longitude q) (longitude p)));
      [exact L|].
    eapply Forall2_impl; [|exact R]. intros r p H. exists p.
    split; [exact H|]. split; [reflexivity|]. split; now left.
Qed.

Lemma batch_rows_independent_witness :
  exists out,
    fst (process_coordinates_file example_files (lit "gps.csv") cupertino true [])
    = Ok out
    /\ Forall2 (fun r o =>
                  exists p,
                    fst (process_row r cupertino []) = Ok p
                    /\ address (processed_fields o) = address p
                    /\ same_cell (latitude (processed_fields o)) (latitude p)
                    /\ same_cell (longitude (processed_fields o)) (longitude p))
         (map (series (columns example_table)) (data example_table)) out.
Proof.
  apply (batch_rows_independent example_files (lit "gps.csv") cupertino true
           example_table []); [|reflexivity|reflexivity].
  intros tr tr' lat lng. reflexivity.
Defined.

End Coverage.
